(** * shapeup: spatially referenced geometries

    A shallow embedding of the Python package [shapeup]
    (modules [shapeup.distance], [shapeup.sr] and [shapeup.geometry.base])
    together with the properties its specification states about it.

    Python [float] is IEEE-754 binary64 and is modelled by Rocq's primitive
    floats; Python [int] is modelled by [Z]; exceptions are modelled by an
    explicit error type; module-level dictionaries and object identity are
    modelled by explicit state passing. *)

From Stdlib Require Import ZArith Floats String Ascii List Bool Lia.
From Stdlib Require Import DecimalString.
Import ListNotations.

Set Implicit Arguments.
Set Warnings "-inexact-float,-register-all".

Open Scope string_scope.
Open Scope Z_scope.

(** ** Python preliminaries *)

Module Py.

(** The exceptions the modelled code can raise.  [ProjError] stands for any
    failure of the projection engine ([pyproj]); [ImportFailure] for the
    failures of a class lookup by name other than [KeyError]. *)
Inductive exn : Set :=
| KeyError
| ValueError
| OverflowError
| AttributeError
| TypeError
| ProjError
| ImportFailure.

Inductive result (A : Type) : Type :=
| Ok (a : A)
| Raise (e : exn).

Arguments Ok {A} a.
Arguments Raise {A} e.

Definition exn_eqb (a b : exn) : bool :=
  match a, b with
  | KeyError, KeyError | ValueError, ValueError
  | OverflowError, OverflowError | AttributeError, AttributeError
  | TypeError, TypeError | ProjError, ProjError
  | ImportFailure, ImportFailure => true
  | _, _ => false
  end.

(** Plain Python values, as far as the export/load path needs them.
    [PObject] is an arbitrary object that is not a JSON value (a class, a
    geometry handle, ...), named for reference only. *)
Inductive pyval : Type :=
| PNone
| PBool (b : bool)
| PInt (z : Z)
| PFloat (f : float)
| PStr (s : string)
| PList (l : list pyval)
| PTuple (l : list pyval)
| PDict (kv : list (string * pyval))
| PObject (name : string).

(** Truth value of a Python value ([bool(v)]). *)
Definition py_bool (v : pyval) : bool :=
  match v with
  | PNone => false
  | PBool b => b
  | PInt z => negb (z =? 0)
  | PFloat f => negb (PrimFloat.eqb f 0%float)
  | PStr s => negb (String.length s =? 0)%nat
  | PList l | PTuple l => negb (length l =? 0)%nat
  | PDict kv => negb (length kv =? 0)%nat
  | PObject _ => true
  end.

(** Lookup of a string key in an association list (a [dict] with [str] keys,
    first binding wins). *)
Fixpoint assoc {A : Type} (k : string) (kv : list (string * A)) : option A :=
  match kv with
  | [] => None
  | (k', v) :: rest => if String.eqb k k' then Some v else assoc k rest
  end.

(** [d[k]]: subscripting raises [KeyError] on a missing key and [TypeError]
    on a value that is no mapping. *)
Definition getitem (d : pyval) (k : string) : result pyval :=
  match d with
  | PDict kv => match assoc k kv with Some v => Ok v | None => Raise KeyError end
  | _ => Raise TypeError
  end.

(** [d.get(k)]: [None] on a missing key. *)
Definition dict_get (d : pyval) (k : string) : result pyval :=
  match d with
  | PDict kv => match assoc k kv with Some v => Ok v | None => Ok PNone end
  | _ => Raise AttributeError
  end.

(** The value [d.get(k)] returns for a [dict]. *)
Definition entry (k : string) (kv : list (string * pyval)) : pyval :=
  match assoc k kv with Some v => v | None => PNone end.

(** What [json.loads(json.dumps(v))] yields: tuples come back as lists,
    objects that are no JSON values make the encoder raise [TypeError]. *)
Fixpoint json_roundtrip (v : pyval) : result pyval :=
  let fix items (l : list pyval) : result (list pyval) :=
    match l with
    | [] => Ok []
    | x :: r =>
        match json_roundtrip x, items r with
        | Ok x', Ok r' => Ok (x' :: r')
        | Raise e, _ => Raise e
        | _, Raise e => Raise e
        end
    end in
  let fix fields (l : list (string * pyval)) : result (list (string * pyval)) :=
    match l with
    | [] => Ok []
    | (k, x) :: r =>
        match json_roundtrip x, fields r with
        | Ok x', Ok r' => Ok ((k, x') :: r')
        | Raise e, _ => Raise e
        | _, Raise e => Raise e
        end
    end in
  match v with
  | PList l | PTuple l =>
      match items l with Ok l' => Ok (PList l') | Raise e => Raise e end
  | PDict kv =>
      match fields kv with Ok kv' => Ok (PDict kv') | Raise e => Raise e end
  | PObject _ => Raise TypeError
  | _ => Ok v
  end.

(** A value the JSON encoder accepts. *)
Definition json_compatible (v : pyval) : bool :=
  match json_roundtrip v with Ok _ => true | Raise _ => false end.

(** [str(n)] for an [int]. *)
Definition py_str (n : Z) : string := NilZero.string_of_int (Z.to_int n).

(** [int(s)] for a [str] of decimal digits; [ValueError] otherwise. *)
Definition py_int (s : string) : result Z :=
  match NilZero.int_of_string s with
  | Some d => Ok (Z.of_int d)
  | None => Raise ValueError
  end.

(** [math.floor(x)]: the largest integer not above [x]; [ValueError] on NaN
    and [OverflowError] on an infinity. *)
Definition math_floor (x : float) : result Z :=
  match Prim2SF x with
  | SpecFloat.S754_zero _ => Ok 0
  | SpecFloat.S754_finite s m e =>
      let v := if s then Z.neg m else Z.pos m in
      Ok (if 0 <=? e then v * 2 ^ e else Z.shiftr v (- e))
  | SpecFloat.S754_infinity _ => Raise OverflowError
  | SpecFloat.S754_nan => Raise ValueError
  end.

(** A float that is neither NaN nor an infinity. *)
Definition is_finite (x : float) : bool :=
  match Prim2SF x with
  | SpecFloat.S754_infinity _ | SpecFloat.S754_nan => false
  | _ => true
  end.

End Py.
Import Py.

(** ** Module [shapeup.distance] *)

Module Distance.

(** [class Units(Enum)] *)
Inductive Units : Set :=
| METERS
| KILOMETERS.

Definition Units_eqb (a b : Units) : bool :=
  match a, b with
  | METERS, METERS | KILOMETERS, KILOMETERS => true
  | _, _ => false
  end.

(** The [units] argument is not checked by Python: a caller may pass a
    member of [Units] or any other hashable value. *)
Inductive units_arg : Set :=
| UnitsMember (u : Units)
| UnitsOther (v : string).

(** [_meter_conversions] *)
Definition _meter_conversions : list (Units * float) :=
  [(METERS, 1.0%float); (KILOMETERS, 1000.0%float)].

Fixpoint table_lookup (u : Units) (t : list (Units * float)) : option float :=
  match t with
  | [] => None
  | (u', f) :: rest => if Units_eqb u u' then Some f else table_lookup u rest
  end.

(** [_meter_conversions[units]] *)
Definition conversion_factor (units : units_arg) : result float :=
  match units with
  | UnitsMember u =>
      match table_lookup u _meter_conversions with
      | Some f => Ok f
      | None => Raise KeyError
      end
  | UnitsOther _ => Raise KeyError
  end.

(** [meters(n, units)]: [return n/_meter_conversions[units]] *)
Definition meters (n : float) (units : units_arg) : result float :=
  match conversion_factor units with
  | Ok f => Ok (n / f)%float
  | Raise e => Raise e
  end.

(** The units with an entry in [_meter_conversions]. *)
Definition has_conversion (units : units_arg) : bool :=
  match conversion_factor units with Ok _ => true | Raise _ => false end.

End Distance.

(** ** Module [shapeup.sr] *)

Module SpatialRef.

(** [class Authorities(Enum)] *)
Inductive Authorities : Set :=
| EPSG.

Definition Authorities_value (a : Authorities) : string :=
  match a with EPSG => "epsg" end.

(** [class Sr(NamedTuple)] *)
Record Sr : Set := mkSr { srid : Z; authority : string }.

(** Tuple equality of two [Sr] values. *)
Definition Sr_eqb (a b : Sr) : bool :=
  (srid a =? srid b) && String.eqb (authority a) (authority b).

(** [WGS_84] *)
Definition WGS_84 : Sr := mkSr 4326 (Authorities_value EPSG).

(** [Sr._asdict()] *)
Definition _asdict (s : Sr) : pyval :=
  PDict [("srid", PInt (srid s)); ("authority", PStr (authority s))].

(** [Sr] called with the entries of a mapping as keyword arguments:
    [srid] is required, [authority] defaults to ['epsg'],
    any other keyword is a [TypeError], and so is a value that is no
    mapping.  The record is typed, so a field of another type than
    [int]/[str] is rejected here as well. *)
Definition Sr_of_kwargs (kwargs : pyval) : result Sr :=
  match kwargs with
  | PDict kv =>
      if forallb (fun p => String.eqb (fst p) "srid" || String.eqb (fst p) "authority") kv
      then
        match assoc "srid" kv, assoc "authority" kv with
        | Some (PInt i), Some (PStr a) => Ok (mkSr i a)
        | Some (PInt i), None => Ok (mkSr i (Authorities_value EPSG))
        | _, _ => Raise TypeError
        end
      else Raise TypeError
  | _ => Raise TypeError
  end.

(** The mutable state of the running program that the modelled code reads
    and writes: the counter from which object identities are drawn and the
    module-level dictionary [_sr_cache]. *)
Record world : Set := mkWorld {
  next_id : nat;
  _sr_cache : list ((Z * string) * Sr)
}.

Definition world0 : world := mkWorld 0 [].

(** Computations that read and write the state and may raise. State changes
    made before an exception is raised persist. *)
Definition M (A : Type) : Type := world -> result A * world.

Definition ret {A : Type} (a : A) : M A := fun w => (Ok a, w).

Definition raise {A : Type} (e : exn) : M A := fun w => (Raise e, w).

Definition lift {A : Type} (r : result A) : M A := fun w => (r, w).

Definition bind {A B : Type} (m : M A) (k : A -> M B) : M B :=
  fun w =>
    match m w with
    | (Ok a, w') => k a w'
    | (Raise e, w') => (Raise e, w')
    end.

Notation "x <- m ;; k" := (bind m (fun x => k))
  (at level 61, m at next level, right associativity).

(** A new object identity. *)
Definition fresh : M nat :=
  fun w => (Ok (next_id w), mkWorld (S (next_id w)) (_sr_cache w)).

Fixpoint cache_lookup (k : Z * string) (c : list ((Z * string) * Sr)) : option Sr :=
  match c with
  | [] => None
  | (k', v) :: rest =>
      if (fst k =? fst k') && String.eqb (snd k) (snd k') then Some v
      else cache_lookup k rest
  end.

(** The [authority] parameter of [sr]: [str or Authorities]. *)
Inductive authority_arg : Set :=
| AuthEnum (a : Authorities)
| AuthStr (s : string).

(** [sr(srid, authority)] *)
Definition sr (srid_ : Z) (authority_ : authority_arg) : M Sr :=
  fun w =>
    let _authority :=
      match authority_ with
      | AuthEnum a => Authorities_value a
      | AuthStr s => s
      end in
    match cache_lookup (srid_, _authority) (_sr_cache w) with
    | Some s => (Ok s, w)
    | None =>
        let _sr := mkSr srid_ _authority in
        (Ok _sr, mkWorld (next_id w) (((srid_, _authority), _sr) :: _sr_cache w))
    end.

(** A band as [utm] prints it: [str(band)], with a leading ['0'] when that
    has one character. *)
Definition zero_padded (band : Z) : string :=
  let utm_band := py_str band in
  if (String.length utm_band =? 1)%nat then String.append "0" utm_band
  else utm_band.

(** [utm(lat, lon)] *)
Definition utm (lat lon : float) : M Sr :=
  k <- lift (math_floor ((lon + 180) / 6)%float) ;;
  let utm_band := zero_padded (k mod 60 + 1) in
  srid_ <- lift (if (0 <=? lat)%float
                 then py_int (String.append "326" utm_band)
                 else py_int (String.append "327" utm_band)) ;;
  sr srid_ (AuthEnum EPSG).

(** Every entry of [_sr_cache] is the [Sr] its key names: the invariant
    [sr] maintains, being the only writer of the dictionary. *)
Definition cache_ok (w : world) : Prop :=
  forall i a s, In ((i, a), s) (_sr_cache w) -> s = mkSr i a.

(** The state after [n] identities were drawn. *)
Definition advance (n : nat) (w : world) : world :=
  mkWorld (n + next_id w) (_sr_cache w).

(** The identifier prefix of a hemisphere: [lat >= 0] is north. *)
Definition hemisphere_prefix (lat : float) : Z :=
  if (0 <=? lat)%float then 326 else 327.

(** For one band: both identifiers parse to prefix * 100 + band, print as
    the prefix followed by the padded band, and the padded band has two
    characters. *)
Definition band_check (n : nat) : bool :=
  let b := Z.of_nat n in
  let padded := zero_padded b in
  match py_int (String.append "326" padded), py_int (String.append "327" padded) with
  | Ok north, Ok south =>
      (north =? 32600 + b) && (south =? 32700 + b)
      && String.eqb (py_str (32600 + b)) (String.append "326" padded)
      && String.eqb (py_str (32700 + b)) (String.append "327" padded)
      && (String.length padded =? 2)%nat
  | _, _ => false
  end.

End SpatialRef.

(** ** Module [shapeup.geometry.base] *)

Module Geometry.

Import Distance SpatialRef.

(** The classes of the wrapper hierarchy: [SrGeometry] and its subclasses. *)
Inductive cls : Set :=
| SrGeometry_cls
| SrPoint_cls
| SrPolygon_cls
| SrPolyline_cls.

Definition cls_eqb (a b : cls) : bool :=
  match a, b with
  | SrGeometry_cls, SrGeometry_cls | SrPoint_cls, SrPoint_cls
  | SrPolygon_cls, SrPolygon_cls | SrPolyline_cls, SrPolyline_cls => true
  | _, _ => false
  end.

(** The geometry engine ([shapely]) and the projection engine ([pyproj])
    the package delegates to, as an interface.  [Geom] is the value of a
    geometry handle.  [proj_transform from_ to g] is
    [transform(transform_fn(from_=from_, to=to), g)], where the transform
    function is the one [shapeup.sr] builds from the two [pyproj]
    projections and keeps in [_transform_fn_cache]: the projection of every
    coordinate of [g], which fails when a reference cannot be resolved. *)
Class GeometryEngine : Type := {
  Geom : Type;
  (** truth value of a geometry: false when it is empty *)
  geom_bool : Geom -> bool;
  (** [g.equals(h)] for a geometry [h] *)
  geom_equals : Geom -> Geom -> bool;
  (** [g.equals(x)] for an [x] that is no geometry *)
  geom_equals_other : Geom -> result bool;
  (** [Point(x, y)] *)
  geom_point : float -> float -> Geom;
  (** [g.centroid] *)
  geom_centroid : Geom -> Geom;
  (** [(p.x, p.y)] for [p = g.representative_point()] *)
  geom_representative_point : Geom -> float * float;
  (** [g.interpolate(d, normalized=True)] *)
  geom_interpolate : Geom -> float -> Geom;
  (** [g.buffer(d)] *)
  geom_buffer : Geom -> float -> Geom;
  (** [mapping(g)] *)
  geom_mapping : Geom -> pyval;
  (** [shape(m)] *)
  geom_shape : pyval -> result Geom;
  proj_transform : Sr -> Sr -> Geom -> result Geom
}.

(** The two helpers of [shapeup.types] that [export] and [load] call:
    [pyfqn(o)], the fully qualified name of the class of [o], and
    [pycls(fqn)], the class a name refers to. *)
Class TypeNames : Type := {
  pyfqn : cls -> string;
  pycls : pyval -> result cls
}.

Section Wrapper.

Context {engine : GeometryEngine} {names : TypeNames}.

(** A geometry handle: an object with an identity that holds a geometry. *)
Record geom_obj : Type := mkGeomObj { gid : nat; gval : Geom }.

(** An instance of [SrGeometry] or of a subclass: its identity, its class
    and its two slots. *)
Record SrGeometry : Type := mkSrGeometry {
  oid : nat;
  ob_cls : cls;
  _base_geometry : geom_obj;
  _sr : Sr
}.

(** A geometry handle just returned by the engine. *)
Definition new_geom (v : Geom) : M geom_obj :=
  i <- fresh ;; ret (mkGeomObj i v).

(** The [base_geometry] argument of the constructors: a geometry or a
    mapping. *)
Inductive init_arg : Type :=
| ArgGeom (g : geom_obj)
| ArgMapping (m : pyval).

(** [SrGeometry.__init__], which the subclasses' constructors call with
    their own arguments: [c] is the class being instantiated. *)
Definition __init__ (c : cls) (base_geometry : init_arg) (sr_ : Sr) : M SrGeometry :=
  i <- fresh ;;
  g <- match base_geometry with
       | ArgGeom g => ret g
       | ArgMapping m => v <- lift (geom_shape m) ;; new_geom v
       end ;;
  ret (mkSrGeometry i c g sr_).

(** [SrGeometry.location], [SrPoint.location] and [SrPolyline.location]:
    the method the class of [self] selects. *)
Definition location (self : SrGeometry) : M SrGeometry :=
  match ob_cls self with
  | SrPoint_cls => ret self
  | SrPolyline_cls =>
      g <- new_geom (geom_interpolate (gval (_base_geometry self)) 0.5%float) ;;
      __init__ SrPoint_cls (ArgGeom g) (_sr self)
  | SrGeometry_cls | SrPolygon_cls =>
      g <- new_geom (geom_centroid (gval (_base_geometry self))) ;;
      __init__ SrPoint_cls (ArgGeom g) (_sr self)
  end.

(** [SrPoint.from_lat_lon] *)
Definition from_lat_lon (lat lon : float) : M SrGeometry :=
  base_geometry <- new_geom (geom_point lon lat) ;;
  __init__ SrPoint_cls (ArgGeom base_geometry) WGS_84.

(** [SrGeometry.mapping] *)
Definition mapping (self : SrGeometry) : pyval :=
  geom_mapping (gval (_base_geometry self)).

(** [SrGeometry.__copy__]: [copy.deepcopy] gives a new handle on the same
    geometry value. *)
Definition __copy__ (self : SrGeometry) : M SrGeometry :=
  g <- new_geom (gval (_base_geometry self)) ;;
  __init__ (ob_cls self) (ArgGeom g) (_sr self).

(** [SrGeometry.transform] *)
Definition transform (self : SrGeometry) (sr_ : Sr) (copy_ : bool) : M SrGeometry :=
  if Sr_eqb sr_ (_sr self) then
    if copy_ then __copy__ self else ret self
  else
    v <- lift (proj_transform (_sr self) sr_ (gval (_base_geometry self))) ;;
    transformed_geometry <- new_geom v ;;
    __init__ SrGeometry_cls (ArgGeom transformed_geometry) sr_.

(** [SrGeometry.as_wgs84] *)
Definition as_wgs84 (self : SrGeometry) : M SrGeometry :=
  if Sr_eqb (_sr self) WGS_84 then ret self
  else transform self WGS_84 true.

(** The representative point [as_utm] works with, as [(x, y)]: that of the
    geometry itself in WGS-84, that of its WGS-84 transform otherwise. *)
Definition as_utm_rp (self : SrGeometry) : M (float * float) :=
  if Sr_eqb (_sr self) WGS_84 then
    ret (geom_representative_point (gval (_base_geometry self)))
  else
    wgs84_geom <- transform self WGS_84 true ;;
    ret (geom_representative_point (gval (_base_geometry wgs84_geom))).

(** [SrGeometry.as_utm] *)
Definition as_utm (self : SrGeometry) : M SrGeometry :=
  rp <- as_utm_rp self ;;
  utm_sr <- utm (snd rp) (fst rp) ;;
  if Sr_eqb utm_sr (_sr self) then ret self
  else transform self utm_sr true.

(** [SrGeometry.buffer] *)
Definition SrGeometry_buffer (self : SrGeometry) (n : float) (units : units_arg) : M SrGeometry :=
  base_utm <- as_utm self ;;
  d <- lift (meters n units) ;;
  base_utm_buf <- new_geom (geom_buffer (gval (_base_geometry base_utm)) d) ;;
  sr_geom_buf <- __init__ SrGeometry_cls (ArgGeom base_utm_buf) (_sr base_utm) ;;
  transform sr_geom_buf (_sr self) true.

(** [typing.cast]: returns its argument as it is. *)
Definition cast (c : cls) (x : M SrGeometry) : M SrGeometry := x.

(** [buffer] as the class of [self] selects it: [SrPoint.buffer] is
    [cast(SrPolygon, super().buffer(n=n, units=units))]. *)
Definition buffer (self : SrGeometry) (n : float) (units : units_arg) : M SrGeometry :=
  match ob_cls self with
  | SrPoint_cls => cast SrPolygon_cls (SrGeometry_buffer self n units)
  | _ => SrGeometry_buffer self n units
  end.

(** [SrGeometry.export] *)
Definition export (self : SrGeometry) : pyval :=
  PDict [("__type__", PStr (pyfqn (ob_cls self)));
         ("base_geometry", geom_mapping (gval (_base_geometry self)));
         ("sr_", _asdict (_sr self))].

(** The class [load] instantiates: [cls_(data['__type__'])], or the class
    [load] was called on when that raises [KeyError]. *)
Definition load_cls (cls_ : cls) (data : pyval) : result cls :=
  let looked_up :=
    match getitem data "__type__" with
    | Ok tag => pycls tag
    | Raise e => Raise e
    end in
  match looked_up with
  | Raise KeyError => Ok cls_
  | r => r
  end.

(** [SrGeometry.load], a class method: [cls_] is the class it is called
    on. *)
Definition load (cls_ : cls) (data : pyval) : M (option SrGeometry) :=
  if negb (py_bool data) then ret None
  else
    _cls <- lift (load_cls cls_ data) ;;
    m <- lift (dict_get data "base_geometry") ;;
    v <- lift (geom_shape m) ;;
    g <- new_geom v ;;
    kwargs <- lift (dict_get data "sr_") ;;
    s <- lift (Sr_of_kwargs kwargs) ;;
    o <- __init__ _cls (ArgGeom g) s ;;
    ret (Some o).

(** What [getattr(other, '_sr')] can return: an [Sr] (or the equal plain
    tuple), or any other value, of which only what comparing an [Sr] with
    it gives matters: the truth of [s == x], or what computing it
    raises. *)
Inductive sr_attr : Type :=
| SrAttr (s : Sr)
| SrAttrOther (equal : Sr -> result bool).

(** What [getattr(other, '_base_geometry')] can return: a geometry, or a
    value that is no geometry, of which only the truth test matters: its
    truth value, or what testing it raises. *)
Inductive geom_attr : Type :=
| GeomAttr (g : geom_obj)
| GeomAttrOther (truth : result bool).

(** The right operand of [==], any Python object: its class when that is
    one of the wrapper classes, and what the three things [__eq__] does
    with it give.  [obj_bool] is its truth test, which returns or raises;
    [obj_sr] and [obj_base_geometry] are the reads of the two attributes,
    which return a value, raise [AttributeError] when the object has no
    such attribute, or raise whatever else reading the attribute
    raises. *)
Record pyobj : Type := mkPyobj {
  obj_cls : option cls;
  obj_bool : result bool;
  obj_sr : result sr_attr;
  obj_base_geometry : result geom_attr
}.

(** A wrapper as an operand.  The wrapper classes define neither
    [__bool__] nor [__len__]: an instance is true. *)
Definition as_obj (w : SrGeometry) : pyobj :=
  mkPyobj (Some (ob_cls w)) (Ok true) (Ok (SrAttr (_sr w)))
          (Ok (GeomAttr (_base_geometry w))).


(** The truth of [s == x] for the value [x] read from [_sr]. *)
Definition sr_attr_eqb (s : Sr) (a : sr_attr) : result bool :=
  match a with
  | SrAttr s' => Ok (Sr_eqb s s')
  | SrAttrOther equal => equal s
  end.

(** The truth test of the value read from [_base_geometry]. *)
Definition geom_attr_bool (a : geom_attr) : result bool :=
  match a with
  | GeomAttr g => Ok (geom_bool (gval g))
  | GeomAttrOther truth => truth
  end.

(** The body of the [try] block of [__eq__]. *)
Definition eq_try (self : SrGeometry) (other : pyobj) : result bool :=
  match obj_sr other with
  | Raise e => Raise e
  | Ok s =>
      match sr_attr_eqb (_sr self) s with
      | Raise e => Raise e
      | Ok false => Ok false
      | Ok true =>
          if negb (geom_bool (gval (_base_geometry self))) then
            match obj_base_geometry other with
            | Raise e => Raise e
            | Ok x =>
                match geom_attr_bool x with
                | Raise e => Raise e
                | Ok b => Ok (negb b)
                end
            end
          else
            match obj_base_geometry other with
            | Raise e => Raise e
            | Ok (GeomAttr g) => Ok (geom_equals (gval (_base_geometry self)) (gval g))
            | Ok (GeomAttrOther _) => geom_equals_other (gval (_base_geometry self))
            end
      end
  end.

(** [SrGeometry.__eq__]: the truth test of [other] comes before the [try]
    block, which turns an [AttributeError] into [False]. *)
Definition __eq__ (self : SrGeometry) (other : pyobj) : result bool :=
  match obj_bool other with
  | Raise e => Raise e
  | Ok false => Ok false
  | Ok true =>
      match eq_try self other with
      | Raise AttributeError => Ok false
      | r => r
      end
  end.

(** [SrGeometry.__ne__] *)
Definition __ne__ (self : SrGeometry) (other : pyobj) : result bool :=
  match __eq__ self other with
  | Ok b => Ok (negb b)
  | Raise e => Raise e
  end.

(** Both identities of a wrapper were drawn from the counter of [w]. *)
Definition allocated (w : world) (o : SrGeometry) : Prop :=
  (oid o < next_id w)%nat /\ (gid (_base_geometry o) < next_id w)%nat.

(** The geometry [buffer] returns: the buffered UTM geometry itself when
    the wrapper is already in that UTM zone, its projection back to the
    reference of the wrapper otherwise. *)
Definition buffered_back (self base_utm : SrGeometry) (d : float) : result Geom :=
  let buf := geom_buffer (gval (_base_geometry base_utm)) d in
  if Sr_eqb (_sr self) (_sr base_utm) then Ok buf
  else proj_transform (_sr base_utm) (_sr self) buf.

(** The engine reads the mapping [m] back as a geometry equal to [g]:
    [shape(m)] is a geometry that is empty when [g] is and that [equals]
    finds equal to [g] when it is not. *)
Definition reads_back (g : Geom) (m : pyval) : Prop :=
  exists g',
    geom_shape m = Ok g'
    /\ geom_bool g' = geom_bool g
    /\ (geom_bool g = true -> geom_equals g' g = true).

End Wrapper.

End Geometry.

(** ** A test double for the engines

    A small executable stand-in for the geometry and projection engines, on
    which the modelled code runs: a geometry is a list of points, projected
    by a plate-carree approximation of the UTM zones.  *)

Module Fake.

Import Distance SpatialRef Geometry.

Definition point : Set := (float * float)%type.

Definition point_eqb (p q : point) : bool :=
  (PrimFloat.eqb (fst p) (fst q) && PrimFloat.eqb (snd p) (snd q))%bool.

Fixpoint points_eqb (g h : list point) : bool :=
  match g, h with
  | [], [] => true
  | p :: g', q :: h' => point_eqb p q && points_eqb g' h'
  | _, _ => false
  end.

Definition sum_x (g : list point) : float :=
  fold_right (fun p acc => (fst p + acc)%float) 0%float g.

Definition sum_y (g : list point) : float :=
  fold_right (fun p acc => (snd p + acc)%float) 0%float g.

Definition centroid (g : list point) : list point :=
  match g with
  | [] => []
  | _ =>
      let n := PrimFloat.of_uint63 (Uint63.of_Z (Z.of_nat (length g))) in
      [((sum_x g / n)%float, (sum_y g / n)%float)]
  end.

Definition representative_point (g : list point) : point :=
  match g with
  | [] => (nan, nan)
  | p :: _ => p
  end.

Definition interpolate (g : list point) (d : float) : list point :=
  match g with
  | [] => []
  | p :: rest =>
      let q := last rest p in
      [((fst p + d * (fst q - fst p))%float, (snd p + d * (snd q - snd p))%float)]
  end.

(** The corners of the square of half-side [d] around each point. *)
Definition square_buffer (g : list point) (d : float) : list point :=
  flat_map (fun p =>
    [((fst p - d)%float, (snd p - d)%float); ((fst p + d)%float, (snd p - d)%float);
     ((fst p + d)%float, (snd p + d)%float); ((fst p - d)%float, (snd p + d)%float)]) g.

Definition point_mapping (p : point) : pyval :=
  PTuple [PFloat (fst p); PFloat (snd p)].

Definition multipoint_mapping (g : list point) : pyval :=
  PDict [("type", PStr "MultiPoint"); ("coordinates", PTuple (map point_mapping g))].

Definition point_shape (v : pyval) : result point :=
  match v with
  | PTuple [PFloat x; PFloat y] | PList [PFloat x; PFloat y] => Ok (x, y)
  | _ => Raise ValueError
  end.

Fixpoint points_shape (l : list pyval) : result (list point) :=
  match l with
  | [] => Ok []
  | v :: r =>
      match point_shape v, points_shape r with
      | Ok p, Ok g => Ok (p :: g)
      | Raise e, _ => Raise e
      | _, Raise e => Raise e
      end
  end.

Definition multipoint_shape (m : pyval) : result (list point) :=
  match m with
  | PDict kv =>
      match assoc "type" kv, assoc "coordinates" kv with
      | Some (PStr "MultiPoint"), Some (PTuple l)
      | Some (PStr "MultiPoint"), Some (PList l) => points_shape l
      | _, _ => Raise ValueError
      end
  | _ => Raise AttributeError
  end.

(** The zone number and hemisphere of a UTM reference of the EPSG
    authority. *)
Definition utm_zone (s : Sr) : option (Z * bool) :=
  if negb (String.eqb (authority s) "epsg") then None
  else if (32601 <=? srid s) && (srid s <=? 32660) then Some (srid s - 32600, true)
  else if (32701 <=? srid s) && (srid s <=? 32760) then Some (srid s - 32700, false)
  else None.

Definition float_of_Z (z : Z) : float :=
  if z <? 0 then (- PrimFloat.of_uint63 (Uint63.of_Z (- z)))%float
  else PrimFloat.of_uint63 (Uint63.of_Z z).

Definition central_meridian (zone : Z) : float := float_of_Z (6 * zone - 183).

Definition to_zone (zone : Z) (north : bool) (p : point) : point :=
  ((500000 + (fst p - central_meridian zone) * 78000)%float,
   ((if north then 0 else 10000000) + snd p * 111000)%float).

Definition of_zone (zone : Z) (north : bool) (p : point) : point :=
  ((central_meridian zone + (fst p - 500000) / 78000)%float,
   ((snd p - (if north then 0 else 10000000)) / 111000)%float).

Definition project (from_ to : Sr) (g : list point) : result (list point) :=
  let to_wgs84 :=
    if Sr_eqb from_ WGS_84 then Ok g
    else match utm_zone from_ with
         | Some (z, n) => Ok (map (of_zone z n) g)
         | None => Raise ProjError
         end in
  match to_wgs84 with
  | Raise e => Raise e
  | Ok g84 =>
      if Sr_eqb to WGS_84 then Ok g84
      else match utm_zone to with
           | Some (z, n) => Ok (map (to_zone z n) g84)
           | None => Raise ProjError
           end
  end.

#[export] Instance engine : GeometryEngine := {|
  Geom := list point;
  geom_bool := fun g => negb (length g =? 0)%nat;
  geom_equals := points_eqb;
  geom_equals_other := fun _ => Raise AttributeError;
  geom_point := fun x y => [(x, y)];
  geom_centroid := centroid;
  geom_representative_point := representative_point;
  geom_interpolate := interpolate;
  geom_buffer := square_buffer;
  geom_mapping := multipoint_mapping;
  geom_shape := multipoint_shape;
  proj_transform := project
|}.

Definition fqn (c : cls) : string :=
  match c with
  | SrGeometry_cls => "shapeup.geometry.base.SrGeometry"
  | SrPoint_cls => "shapeup.geometry.base.SrPoint"
  | SrPolygon_cls => "shapeup.geometry.base.SrPolygon"
  | SrPolyline_cls => "shapeup.geometry.base.SrPolyline"
  end.

Definition class_named (tag : pyval) : result cls :=
  match tag with
  | PStr s =>
      if String.eqb s (fqn SrGeometry_cls) then Ok SrGeometry_cls
      else if String.eqb s (fqn SrPoint_cls) then Ok SrPoint_cls
      else if String.eqb s (fqn SrPolygon_cls) then Ok SrPolygon_cls
      else if String.eqb s (fqn SrPolyline_cls) then Ok SrPolyline_cls
      else Raise ImportFailure
  | _ => Raise AttributeError
  end.

#[export] Instance names : TypeNames := {|
  pyfqn := fqn;
  pycls := class_named
|}.

(** The state after [SrPoint.from_lat_lon(lat=45.553670, lon=-94.142430)]
    ran in a new process, and the point it returned: the fixture of the
    package's own test. *)
Definition world2 : world := mkWorld 2 [].

Definition wgs84_point : SrGeometry :=
  mkSrGeometry 1 SrPoint_cls (mkGeomObj 0 [((-94.142430)%float, 45.553670%float)]) WGS_84.

(** The same place as a point of UTM zone 15 north, and of zone 16 north
    (a zone that does not contain it). *)
Definition utm15_point : SrGeometry :=
  mkSrGeometry 1 SrPoint_cls (mkGeomObj 0 [(410890.46%float, 5056457.37%float)]) (mkSr 32615 "epsg").

Definition utm16_point : SrGeometry :=
  mkSrGeometry 1 SrPoint_cls (mkGeomObj 0 [((-57109.54)%float, 5056457.37%float)]) (mkSr 32616 "epsg").

(** A line of two points in WGS-84. *)
Definition wgs84_line : SrGeometry :=
  mkSrGeometry 1 SrPolyline_cls
    (mkGeomObj 0 [((-94.0)%float, 45.0%float); ((-93.0)%float, 46.0%float)]) WGS_84.


(** A mapping without a type tag. *)
Definition untagged : pyval :=
  PDict [("base_geometry", multipoint_mapping [((-94.142430)%float, 45.553670%float)]);
         ("sr_", _asdict WGS_84)].

End Fake.

(** ** Module [shapeup.sr]: projections and transformation functions *)

Module Projections.

Import SpatialRef.

(** The projection engine ([pyproj]): [Proj(init=s)] builds a projection
    from a string such as ['epsg:4326'] or raises. *)
Class ProjEngine : Type := {
  Proj : Type;
  Proj_init : string -> result Proj
}.

Section Caches.

Context {pe : ProjEngine}.

(** [partial(pyproj.transform, p1, p2)]: the transformation function of
    two projections. *)
Record transform_fn : Type := mkPartial { fn_from : Proj; fn_to : Proj }.

(** The two module-level dictionaries [_proj_cache] and
    [_transform_fn_cache], and the strings [Proj] was called with so far
    (the latest first). *)
Record caches : Type := mkCaches {
  _proj_cache : list ((Z * string) * Proj);
  _transform_fn_cache : list ((Sr * Sr) * transform_fn);
  proj_calls : list string
}.

Definition caches0 : caches := mkCaches [] [] [].

(** Computations on the two dictionaries that may raise. *)
Definition P (A : Type) : Type := caches -> result A * caches.

Definition key_eqb (a b : Z * string) : bool :=
  (fst a =? fst b) && String.eqb (snd a) (snd b).

Definition pair_eqb (a b : Sr * Sr) : bool :=
  Sr_eqb (fst a) (fst b) && Sr_eqb (snd a) (snd b).

(** [d[k]] for a dictionary held as a list of entries; [None] stands for
    [KeyError]. *)
Fixpoint kv_lookup {K V : Type} (eqb : K -> K -> bool) (k : K) (d : list (K * V)) : option V :=
  match d with
  | [] => None
  | (k', v) :: rest => if eqb k k' then Some v else kv_lookup eqb k rest
  end.

(** The string [f'{self.authority}:{self.srid}']. *)
Definition init_string (self : Sr) : string :=
  String.append (authority self) (String.append ":" (py_str (srid self))).

(** The property [Sr.proj] *)
Definition proj (self : Sr) : P Proj :=
  fun c =>
    match kv_lookup key_eqb (srid self, authority self) (_proj_cache c) with
    | Some p => (Ok p, c)
    | None =>
        let called := init_string self :: proj_calls c in
        match Proj_init (init_string self) with
        | Ok _proj =>
            (Ok _proj,
             mkCaches (((srid self, authority self), _proj) :: _proj_cache c)
                      (_transform_fn_cache c) called)
        | Raise e => (Raise e, mkCaches (_proj_cache c) (_transform_fn_cache c) called)
        end
    end.

(** [_transform_fn(from_, to)] *)
Definition _transform_fn (from_ to : Sr) : P transform_fn :=
  fun c =>
    match kv_lookup pair_eqb (from_, to) (_transform_fn_cache c) with
    | Some fn => (Ok fn, c)
    | None =>
        match proj from_ c with
        | (Raise e, c1) => (Raise e, c1)
        | (Ok p1, c1) =>
            match proj to c1 with
            | (Raise e, c2) => (Raise e, c2)
            | (Ok p2, c2) =>
                let fn := mkPartial p1 p2 in
                (Ok fn,
                 mkCaches (_proj_cache c2)
                          (((from_, to), fn) :: _transform_fn_cache c2)
                          (proj_calls c2))
            end
        end
    end.

(** Every projection in [_proj_cache] is the one [Proj] built for its
    key, and every function in [_transform_fn_cache] is bound to the
    projections [Proj] built for its two references. *)
Definition caches_ok (c : caches) : Prop :=
  (forall k p, In (k, p) (_proj_cache c) ->
               Proj_init (init_string (mkSr (fst k) (snd k))) = Ok p)
  /\ (forall a b fn, In ((a, b), fn) (_transform_fn_cache c) ->
                     Proj_init (init_string a) = Ok (fn_from fn)
                     /\ Proj_init (init_string b) = Ok (fn_to fn)).

(** Every function in [_transform_fn_cache] has its two projections in
    [_proj_cache]. *)
Definition fn_backed (c : caches) : Prop :=
  forall a b fn, In ((a, b), fn) (_transform_fn_cache c) ->
    kv_lookup key_eqb (srid a, authority a) (_proj_cache c) = Some (fn_from fn)
    /\ kv_lookup key_eqb (srid b, authority b) (_proj_cache c) = Some (fn_to fn).

(** [c'] holds every entry [c] holds, under the same key. *)
Definition extends (c c' : caches) : Prop :=
  (forall k p, kv_lookup key_eqb k (_proj_cache c) = Some p ->
               kv_lookup key_eqb k (_proj_cache c') = Some p)
  /\ (forall k fn, kv_lookup pair_eqb k (_transform_fn_cache c) = Some fn ->
                   kv_lookup pair_eqb k (_transform_fn_cache c') = Some fn).

End Caches.

End Projections.

(** ** A test double for the projection engine *)

Module FakeProj.

Import SpatialRef Projections.

(** A projection is the string it was built from; only the references of
    the EPSG authority are known. *)
Definition known_init (s : string) : result string :=
  if String.prefix "epsg:" s then Ok s else Raise ProjError.

#[export] Instance proj_engine : ProjEngine := {|
  Proj := string;
  Proj_init := known_init
|}.

(** A reference of an authority the engine does not know. *)
Definition unknown_sr : Sr := mkSr 1 "nowhere".

(** UTM zone 15 north. *)
Definition zone15 : Sr := mkSr 32615 "epsg".

End FakeProj.

(** ** Notions the properties are stated with *)

Module SpatialRefNotions.

Import SpatialRef.

(** The authority [sr] works with: [authority.value] for a member of
    [Authorities], the argument itself otherwise. *)
Definition authority_of (auth : authority_arg) : string :=
  match auth with
  | AuthEnum a => Authorities_value a
  | AuthStr s => s
  end.

(** The keys of [_sr_cache]. *)
Definition cache_keys (w : world) : list (Z * string) := map fst (_sr_cache w).

(** [w'] holds every entry of [_sr_cache] that [w] holds. *)
Definition cache_kept (w w' : world) : Prop :=
  forall k s, cache_lookup k (_sr_cache w) = Some s ->
              cache_lookup k (_sr_cache w') = Some s.

(** From [w] to [w'] the cache of references stayed sound and lost no
    entry, and the counter of identities did not go back. *)
Definition grown (w w' : world) : Prop :=
  (cache_ok w -> cache_ok w')
  /\ cache_kept w w'
  /\ (next_id w <= next_id w')%nat.

End SpatialRefNotions.

Module GeometryNotions.

Import Distance SpatialRef Geometry.

Section Notions.

Context {engine : GeometryEngine} {names : TypeNames}.

(** A value of the state dictionary of pickling: a plain value, or an
    [Sr]. *)
Inductive slot_val : Type :=
| SlotValue (v : pyval)
| SlotSr (s : Sr).

(** [SrGeometry.__getstate__] *)
Definition __getstate__ (self : SrGeometry) : list (string * slot_val) :=
  [("_base_geometry", SlotValue (geom_mapping (gval (_base_geometry self))));
   ("_sr", SlotSr (_sr self))].

(** An instance whose two slots may not be set yet, as [__setstate__]
    receives it. *)
Record instance : Type := mkInstance {
  inst_oid : nat;
  inst_cls : cls;
  inst_base_geometry : option geom_obj;
  inst_sr : option slot_val
}.

(** [state.get(k)] *)
Definition state_get (state : list (string * slot_val)) (k : string) : slot_val :=
  match assoc k state with Some v => v | None => SlotValue PNone end.

(** [shape(x)] for a value of the state; to [shape] an [Sr] is the tuple
    of its fields. *)
Definition shape_of_slot (x : slot_val) : result Geom :=
  match x with
  | SlotValue v => geom_shape v
  | SlotSr s => geom_shape (PTuple [PInt (srid s); PStr (authority s)])
  end.

(** [SrGeometry.__setstate__]: the instance with its slots assigned. *)
Definition __setstate__ (self : instance) (state : list (string * slot_val)) : M instance :=
  v <- lift (shape_of_slot (state_get state "_base_geometry")) ;;
  g <- new_geom v ;;
  ret (mkInstance (inst_oid self) (inst_cls self) (Some g) (Some (state_get state "_sr"))).

(** An instance with both slots set, the second to an [Sr], as a
    wrapper. *)
Definition as_wrapper (i : instance) : option SrGeometry :=
  match inst_base_geometry i, inst_sr i with
  | Some g, Some (SlotSr s) => Some (mkSrGeometry (inst_oid i) (inst_cls i) g s)
  | _, _ => None
  end.

End Notions.

End GeometryNotions.

Module FakeInstances.

Import Geometry GeometryNotions Fake.

(** An instance just made by [cls.__new__], no slot set. *)
Definition blank_point : instance := mkInstance 9 SrPoint_cls None None.

End FakeInstances.

(** * Properties *)

(** ** Distances *)

Module DistanceFacts.

Import Distance.

Lemma members_have_conversion (u : Units) :
  has_conversion (UnitsMember u) = true.
Proof. destruct u; reflexivity. Qed.

Lemma conversion_factor_member (u : Units) :
  conversion_factor (UnitsMember u)
  = Ok (match u with METERS => 1.0 | KILOMETERS => 1000.0 end)%float.
Proof. destruct u; reflexivity. Qed.

Lemma conversion_factor_error (units : units_arg) (e : exn) :
  conversion_factor units = Raise e -> e = KeyError.
Proof.
  destruct units as [u | v].
  - rewrite conversion_factor_member. discriminate.
  - cbn. intros H. injection H as <-. reflexivity.
Qed.

(** Two results that hold different floats are different. *)
Lemma Ok_float_neq (a b : float) :
  Prim2SF a <> Prim2SF b -> Ok a <> Ok b.
Proof.
  intros Hne Heq. apply Hne. injection Heq as ->. reflexivity.
Qed.

(** C1, as the code has it: [meters] DIVIDES the quantity by the factor of
    the table instead of multiplying by it.  One kilometre comes out as
    a thousandth of a metre, not as the 1000.0 metres it is; only the
    factor 1.0 hides the difference, [meters(1000, METERS)] being 1000.0. *)
Theorem meters_divides_by_the_factor :
  (forall n u,
      meters n (UnitsMember u)
      = Ok (n / match u with METERS => 1.0 | KILOMETERS => 1000.0 end)%float)
  /\ meters 1%float (UnitsMember KILOMETERS) = Ok 0.001%float
  /\ meters 1%float (UnitsMember KILOMETERS) <> Ok (1 * 1000.0)%float
  /\ meters 1000%float (UnitsMember METERS) = Ok 1000.0%float.
Proof.
  split; [| split; [| split]].
  - intros n u. unfold meters. rewrite conversion_factor_member. reflexivity.
  - reflexivity.
  - apply Ok_float_neq. vm_compute. discriminate.
  - reflexivity.
Qed.

(** C7 for the conversion itself: a units value without an entry in the
    table makes [meters] raise the lookup error of the table, whatever the
    quantity. *)
Lemma meters_unknown_units (n : float) (units : units_arg) :
  has_conversion units = false -> meters n units = Raise KeyError.
Proof.
  unfold has_conversion, meters.
  destruct (conversion_factor units) as [f | e] eqn:E; [discriminate |].
  intros _. rewrite (conversion_factor_error _ E). reflexivity.
Qed.

End DistanceFacts.

(** ** Spatial references *)

Module SpatialRefFacts.

Import SpatialRef.

(** *** Running a computation step by step *)

Lemma bind_ok {A B : Type} (m : M A) (k : A -> M B) (w w' : world) (a : A) :
  m w = (Ok a, w') -> bind m k w = k a w'.
Proof. intros H. unfold bind. rewrite H. reflexivity. Qed.

Lemma bind_raise {A B : Type} (m : M A) (k : A -> M B) (w w' : world) (e : exn) :
  m w = (Raise e, w') -> bind m k w = (Raise e, w').
Proof. intros H. unfold bind. rewrite H. reflexivity. Qed.

Lemma bind_lift_ok {A B : Type} (r : result A) (k : A -> M B) (w : world) (a : A) :
  r = Ok a -> bind (lift r) k w = k a w.
Proof. intros ->. reflexivity. Qed.

Lemma bind_lift_raise {A B : Type} (r : result A) (k : A -> M B) (w : world) (e : exn) :
  r = Raise e -> bind (lift r) k w = (Raise e, w).
Proof. intros ->. reflexivity. Qed.

(** *** Equality of references *)

Lemma Sr_eqb_eq (a b : Sr) : Sr_eqb a b = true <-> a = b.
Proof.
  unfold Sr_eqb. rewrite andb_true_iff, Z.eqb_eq, String.eqb_eq.
  destruct a as [i x], b as [j y]; simpl. split.
  - intros [-> ->]. reflexivity.
  - intros H. injection H as -> ->. split; reflexivity.
Qed.

Lemma Sr_eqb_refl (a : Sr) : Sr_eqb a a = true.
Proof. apply Sr_eqb_eq. reflexivity. Qed.

Lemma Sr_eqb_neq (a b : Sr) : Sr_eqb a b = false <-> a <> b.
Proof.
  split.
  - intros H E. apply Sr_eqb_eq in E. congruence.
  - intros H. destruct (Sr_eqb a b) eqn:E; [| reflexivity].
    apply Sr_eqb_eq in E. contradiction.
Qed.

Lemma Sr_eqb_sym (a b : Sr) : Sr_eqb a b = Sr_eqb b a.
Proof.
  unfold Sr_eqb. rewrite Z.eqb_sym, String.eqb_sym. reflexivity.
Qed.

(** [Sr] rebuilt from its own [_asdict()]. *)
Lemma Sr_of_kwargs_asdict (s : Sr) : Sr_of_kwargs (_asdict s) = Ok s.
Proof. destruct s as [i a]. reflexivity. Qed.

(** *** The cache of [sr] *)

Lemma cache_lookup_sound (c : list ((Z * string) * Sr)) (i : Z) (a : string) (s : Sr) :
  cache_lookup (i, a) c = Some s -> In ((i, a), s) c.
Proof.
  induction c as [| [[j b] v] rest IH]; simpl; [discriminate |].
  destruct ((i =? j) && String.eqb a b) eqn:E.
  - apply andb_true_iff in E. destruct E as [Ei Ea].
    apply Z.eqb_eq in Ei. apply String.eqb_eq in Ea. subst j b.
    intros H. injection H as ->. left. reflexivity.
  - intros H. right. apply IH. exact H.
Qed.

Lemma cache_ok_world0 : cache_ok world0.
Proof. intros i a s []. Qed.

(** [sr] returns the reference its arguments name and keeps the cache
    sound; it draws no object identity. *)
Lemma sr_spec (i : Z) (auth : authority_arg) (w : world) :
  cache_ok w ->
  exists w',
    sr i auth w
    = (Ok (mkSr i match auth with AuthEnum a => Authorities_value a | AuthStr s => s end), w')
    /\ cache_ok w' /\ next_id w' = next_id w.
Proof.
  intros Hok. unfold sr.
  set (a := match auth with AuthEnum a => Authorities_value a | AuthStr s => s end).
  destruct (cache_lookup (i, a) (_sr_cache w)) as [s |] eqn:E.
  - exists w. apply cache_lookup_sound in E. rewrite (Hok _ _ _ E).
    repeat split. exact Hok.
  - eexists. split; [reflexivity |]. split; [| reflexivity].
    intros j b s [H | H].
    + injection H as <- <- <-. reflexivity.
    + apply (Hok _ _ _ H).
Qed.

(** [sr] and [utm] draw no object identity, whatever the cache holds. *)
Lemma sr_next_id (i : Z) (auth : authority_arg) (w w' : world) (r : result Sr) :
  sr i auth w = (r, w') -> next_id w' = next_id w.
Proof.
  unfold sr.
  destruct (cache_lookup _ (_sr_cache w)); intros H; injection H as _ <-; reflexivity.
Qed.

Lemma utm_next_id (lat lon : float) (w w' : world) (r : result Sr) :
  utm lat lon w = (r, w') -> next_id w' = next_id w.
Proof.
  unfold utm, bind, lift.
  destruct (math_floor ((lon + 180) / 6)%float) as [k | e].
  - destruct (if (0 <=? lat)%float
              then py_int (String.append "326" (zero_padded (k mod 60 + 1)))
              else py_int (String.append "327" (zero_padded (k mod 60 + 1))))
      as [i | e].
    + apply sr_next_id.
    + intros H. injection H as _ <-. reflexivity.
  - intros H. injection H as _ <-. reflexivity.
Qed.

(** [math.floor] returns on every finite float, and only there. *)
Lemma math_floor_finite (x : float) :
  is_finite x = true <-> exists k, math_floor x = Ok k.
Proof.
  unfold is_finite, math_floor. destruct (Prim2SF x) as [s | s | | s m e]; split;
    try discriminate; try (intros _; eexists; reflexivity);
    intros [k Hk]; discriminate Hk.
Qed.

(** Without a floor (a longitude that is NaN or infinite) [utm] raises what
    [math.floor] raises and leaves the cache as it was. *)
Lemma utm_without_floor (lat lon : float) (e : exn) (w : world) :
  math_floor ((lon + 180) / 6)%float = Raise e -> utm lat lon w = (Raise e, w).
Proof. intros H. unfold utm. rewrite (bind_lift_raise _ _ H). reflexivity. Qed.

(** *** Bands and identifiers *)

Lemma band_table : forallb band_check (seq 1 60) = true.
Proof. vm_compute. reflexivity. Qed.

Lemma band_facts (b : Z) :
  1 <= b <= 60 ->
  py_int (String.append "326" (zero_padded b)) = Ok (32600 + b)
  /\ py_int (String.append "327" (zero_padded b)) = Ok (32700 + b)
  /\ py_str (32600 + b) = String.append "326" (zero_padded b)
  /\ py_str (32700 + b) = String.append "327" (zero_padded b)
  /\ String.length (zero_padded b) = 2%nat.
Proof.
  intros Hb.
  assert (Hin : In (Z.to_nat b) (seq 1 60)) by (apply in_seq; lia).
  pose proof (proj1 (forallb_forall band_check (seq 1 60)) band_table _ Hin) as H.
  unfold band_check in H. rewrite Z2Nat.id in H by lia.
  destruct (py_int (String.append "326" (zero_padded b))) as [north |]; [| discriminate].
  destruct (py_int (String.append "327" (zero_padded b))) as [south |]; [| discriminate].
  repeat rewrite andb_true_iff in H.
  destruct H as [[[[Hn Hs] Hpn] Hps] Hlen].
  apply Z.eqb_eq in Hn, Hs. apply String.eqb_eq in Hpn, Hps.
  apply Nat.eqb_eq in Hlen. subst. repeat split; assumption.
Qed.

Lemma band_range (k : Z) : 1 <= k mod 60 + 1 <= 60.
Proof. pose proof (Z.mod_pos_bound k 60). lia. Qed.

(** C4. Whenever the floor of (lon + 180) / 6 exists (it does for every
    finite longitude) and is [k], [utm(lat, lon)] returns the EPSG
    reference whose identifier is the hemisphere prefix (326 when
    [lat >= 0], so also at latitude 0, else 327) followed by the
    two-digit, zero-padded band [k mod 60 + 1], a number from 1 to 60. *)
Theorem utm_identifier (lat lon : float) (k : Z) (w : world) :
  cache_ok w ->
  math_floor ((lon + 180) / 6)%float = Ok k ->
  let band := k mod 60 + 1 in
  let srid_ := hemisphere_prefix lat * 100 + band in
  1 <= band <= 60
  /\ (exists w', utm lat lon w = (Ok (mkSr srid_ "epsg"), w')
                 /\ cache_ok w' /\ next_id w' = next_id w)
  /\ py_str srid_ = String.append (py_str (hemisphere_prefix lat)) (zero_padded band)
  /\ String.length (zero_padded band) = 2%nat.
Proof.
  intros Hok Hk band srid_.
  pose proof (band_range k) as Hb. fold band in Hb.
  destruct (band_facts Hb) as (Hn & Hs & Hpn & Hps & Hlen).
  split; [exact Hb |]. split; [| split; [| exact Hlen]].
  - unfold utm. rewrite (bind_lift_ok _ _ Hk). fold band.
    subst srid_. unfold hemisphere_prefix.
    destruct (0 <=? lat)%float.
    + rewrite (bind_lift_ok _ _ Hn).
      replace (326 * 100 + band) with (32600 + band) by lia.
      apply (sr_spec (32600 + band) (AuthEnum EPSG) Hok).
    + rewrite (bind_lift_ok _ _ Hs).
      replace (327 * 100 + band) with (32700 + band) by lia.
      apply (sr_spec (32700 + band) (AuthEnum EPSG) Hok).
  - subst srid_. unfold hemisphere_prefix.
    destruct (0 <=? lat)%float.
    + replace (326 * 100 + band) with (32600 + band) by lia. exact Hpn.
    + replace (327 * 100 + band) with (32700 + band) by lia. exact Hps.
Qed.

(** The examples of the specification: Minnesota is in zone 15 north,
    Sydney in zone 56 south; longitude 179.9 is in band 60 and both -180
    and 180 are in band 1; latitude 0 is north. *)
Lemma utm_identifier_examples :
  fst (utm 45.0%float (-94.0)%float world0) = Ok (mkSr 32615 "epsg")
  /\ fst (utm (-33.0)%float 151.0%float world0) = Ok (mkSr 32756 "epsg")
  /\ fst (utm 0%float 179.9%float world0) = Ok (mkSr 32660 "epsg")
  /\ fst (utm 0%float (-180.0)%float world0) = Ok (mkSr 32601 "epsg")
  /\ fst (utm 0%float 180.0%float world0) = Ok (mkSr 32601 "epsg").
Proof.
  split; [| split; [| split; [| split]]].
  - destruct (@utm_identifier 45.0%float (-94.0)%float 14 world0 cache_ok_world0 eq_refl)
      as (_ & (w' & E & _) & _).
    rewrite E. reflexivity.
  - destruct (@utm_identifier (-33.0)%float 151.0%float 55 world0 cache_ok_world0 eq_refl)
      as (_ & (w' & E & _) & _).
    rewrite E. reflexivity.
  - destruct (@utm_identifier 0%float 179.9%float 59 world0 cache_ok_world0 eq_refl)
      as (_ & (w' & E & _) & _).
    rewrite E. reflexivity.
  - destruct (@utm_identifier 0%float (-180.0)%float 0 world0 cache_ok_world0 eq_refl)
      as (_ & (w' & E & _) & _).
    rewrite E. reflexivity.
  - destruct (@utm_identifier 0%float 180.0%float 60 world0 cache_ok_world0 eq_refl)
      as (_ & (w' & E & _) & _).
    rewrite E. reflexivity.
Defined.

End SpatialRefFacts.

(** ** Wrappers *)

Module GeometryFacts.

Import Distance SpatialRef Geometry DistanceFacts SpatialRefFacts.

Section WithEngines.

Context {engine : GeometryEngine} {names : TypeNames}.

(** *** What the constructors and [transform] compute *)

Lemma new_geom_run (v : Geom) (w : world) :
  new_geom v w = (Ok (mkGeomObj (next_id w) v), advance 1 w).
Proof. reflexivity. Qed.

Lemma init_run (c : cls) (g : geom_obj) (s : Sr) (w : world) :
  __init__ c (ArgGeom g) s w = (Ok (mkSrGeometry (next_id w) c g s), advance 1 w).
Proof. reflexivity. Qed.

Lemma copy_run (self : SrGeometry) (w : world) :
  __copy__ self w
  = (Ok (mkSrGeometry (S (next_id w)) (ob_cls self)
           (mkGeomObj (next_id w) (gval (_base_geometry self))) (_sr self)),
     advance 2 w).
Proof. reflexivity. Qed.

Lemma transform_same (self : SrGeometry) (sr_ : Sr) (copy_ : bool) (w : world) :
  sr_ = _sr self ->
  transform self sr_ copy_ w = if copy_ then __copy__ self w else (Ok self, w).
Proof.
  intros ->. unfold transform. rewrite Sr_eqb_refl. destruct copy_; reflexivity.
Qed.

Lemma transform_other (self : SrGeometry) (sr_ : Sr) (copy_ : bool) (v : Geom) (w : world) :
  sr_ <> _sr self ->
  proj_transform (_sr self) sr_ (gval (_base_geometry self)) = Ok v ->
  transform self sr_ copy_ w
  = (Ok (mkSrGeometry (S (next_id w)) SrGeometry_cls (mkGeomObj (next_id w) v) sr_),
     advance 2 w).
Proof.
  intros Hne Hv. apply Sr_eqb_neq in Hne. unfold transform. rewrite Hne.
  rewrite (bind_lift_ok _ _ Hv). reflexivity.
Qed.

Lemma transform_other_raise (self : SrGeometry) (sr_ : Sr) (copy_ : bool) (e : exn) (w : world) :
  sr_ <> _sr self ->
  proj_transform (_sr self) sr_ (gval (_base_geometry self)) = Raise e ->
  transform self sr_ copy_ w = (Raise e, w).
Proof.
  intros Hne Hv. apply Sr_eqb_neq in Hne. unfold transform. rewrite Hne.
  rewrite (bind_lift_raise _ _ Hv). reflexivity.
Qed.

(** A transformation to another reference returns, when it returns, a new
    [SrGeometry] in that reference. *)
Lemma transform_other_result (self : SrGeometry) (sr_ : Sr) (copy_ : bool)
      (w w' : world) (r : SrGeometry) :
  sr_ <> _sr self ->
  transform self sr_ copy_ w = (Ok r, w') ->
  oid r = S (next_id w) /\ gid (_base_geometry r) = next_id w
  /\ ob_cls r = SrGeometry_cls /\ _sr r = sr_ /\ w' = advance 2 w
  /\ proj_transform (_sr self) sr_ (gval (_base_geometry self)) = Ok (gval (_base_geometry r)).
Proof.
  intros Hne.
  destruct (proj_transform (_sr self) sr_ (gval (_base_geometry self))) as [v | e] eqn:Hv.
  - rewrite (transform_other self copy_ w Hne Hv).
    intros H. injection H as <- <-. simpl. repeat split; reflexivity.
  - rewrite (transform_other_raise self copy_ w Hne Hv). discriminate.
Qed.

(** *** The state only grows *)

Lemma as_utm_rp_next_id (self : SrGeometry) (w w' : world) (rp : float * float) :
  as_utm_rp self w = (Ok rp, w') -> (next_id w <= next_id w')%nat.
Proof.
  unfold as_utm_rp. destruct (Sr_eqb (_sr self) WGS_84) eqn:E.
  - intros H. injection H as _ <-. lia.
  - apply Sr_eqb_neq in E.
    destruct (transform self WGS_84 true w) as [[r | e] w1] eqn:Ht.
    + rewrite (bind_ok _ _ _ Ht).
      apply transform_other_result in Ht; [| congruence].
      destruct Ht as (_ & _ & _ & _ & -> & _).
      intros H. injection H as _ <-. simpl. lia.
    + rewrite (bind_raise _ _ _ Ht). discriminate.
Qed.

(** *** Equality *)

(** What [==] computes on two wrappers. *)
Lemma eq_wrappers (a b : SrGeometry) :
  __eq__ a (as_obj b)
  = Ok (Sr_eqb (_sr a) (_sr b)
        && if geom_bool (gval (_base_geometry a))
           then geom_equals (gval (_base_geometry a)) (gval (_base_geometry b))
           else negb (geom_bool (gval (_base_geometry b)))).
Proof.
  unfold __eq__, eq_try. simpl.
  destruct (Sr_eqb (_sr a) (_sr b)); simpl; [| reflexivity].
  destruct (geom_bool (gval (_base_geometry a))); reflexivity.
Qed.

(** A wrapper equals every wrapper with its reference and its geometry
    value, provided the engine finds that geometry equal to itself. *)
Lemma eq_same_value (a b : SrGeometry) :
  _sr a = _sr b ->
  gval (_base_geometry a) = gval (_base_geometry b) ->
  (geom_bool (gval (_base_geometry b)) = true ->
   geom_equals (gval (_base_geometry b)) (gval (_base_geometry b)) = true) ->
  __eq__ a (as_obj b) = Ok true.
Proof.
  intros Hsr Hg Hrefl. rewrite eq_wrappers, Hsr, Hg, Sr_eqb_refl. simpl.
  destruct (geom_bool (gval (_base_geometry b))) eqn:E.
  - rewrite Hrefl; reflexivity.
  - reflexivity.
Qed.

(** *** [transform] *)

(** C6. [w.transform(w.sr)] returns a copy: another object of the class of
    [w], with the reference of [w] and a new handle on the same geometry
    value (so equal to [w] under [==] wherever the engine finds a geometry
    equal to itself); with [copy_=False] it returns [w] and changes
    nothing; and a transformation to another reference returns a new
    wrapper in that reference whose geometry is the projected one. *)
Theorem transform_same_reference_and_other (self : SrGeometry) (w : world) :
  allocated w self ->
  (exists r w',
      transform self (_sr self) true w = (Ok r, w')
      /\ oid r <> oid self
      /\ gid (_base_geometry r) <> gid (_base_geometry self)
      /\ gval (_base_geometry r) = gval (_base_geometry self)
      /\ _sr r = _sr self
      /\ ob_cls r = ob_cls self
      /\ ((geom_bool (gval (_base_geometry self)) = true ->
           geom_equals (gval (_base_geometry self)) (gval (_base_geometry self)) = true) ->
          __eq__ r (as_obj self) = Ok true))
  /\ transform self (_sr self) false w = (Ok self, w)
  /\ (forall target copy_ v,
         target <> _sr self ->
         proj_transform (_sr self) target (gval (_base_geometry self)) = Ok v ->
         exists r w',
           transform self target copy_ w = (Ok r, w')
           /\ _sr r = target
           /\ gval (_base_geometry r) = v
           /\ oid r <> oid self
           /\ gid (_base_geometry r) <> gid (_base_geometry self)).
Proof.
  intros [Hoid Hgid]. split; [| split].
  - rewrite (transform_same self true w eq_refl), copy_run.
    eexists. eexists. split; [reflexivity |]. simpl.
    repeat split; try lia.
    intros Hrefl. apply eq_same_value; [reflexivity | reflexivity | exact Hrefl].
  - apply (transform_same self false w eq_refl).
  - intros target copy_ v Hne Hv.
    rewrite (transform_other self copy_ w Hne Hv).
    eexists. eexists. split; [reflexivity |]. simpl.
    repeat split; lia.
Qed.

(** C10. A wrapper of a subclass transformed to another reference comes
    back as a plain [SrGeometry]: the class of the receiver is lost, and
    with it the subclass's [location], the result answering with a new
    point at its centroid where an [SrPoint] answers with itself and an
    [SrPolyline] with the point halfway along the line. *)
Theorem transform_returns_the_base_class
        (self : SrGeometry) (target : Sr) (copy_ : bool) (v : Geom) (w : world) :
  ob_cls self <> SrGeometry_cls ->
  target <> _sr self ->
  proj_transform (_sr self) target (gval (_base_geometry self)) = Ok v ->
  exists r w',
    transform self target copy_ w = (Ok r, w')
    /\ ob_cls r = SrGeometry_cls
    /\ ob_cls r <> ob_cls self
    /\ (exists p w'',
           location r w' = (Ok p, w'')
           /\ ob_cls p = SrPoint_cls
           /\ gval (_base_geometry p) = geom_centroid v
           /\ _sr p = target
           /\ oid p <> oid r)
    /\ (ob_cls self = SrPoint_cls -> location self w = (Ok self, w))
    /\ (ob_cls self = SrPolyline_cls ->
        exists p w1,
          location self w = (Ok p, w1)
          /\ gval (_base_geometry p)
             = geom_interpolate (gval (_base_geometry self)) 0.5%float).
Proof.
  intros Hcls Hne Hv.
  rewrite (transform_other self copy_ w Hne Hv).
  eexists. eexists. split; [reflexivity |]. simpl.
  split; [reflexivity |]. split; [congruence |]. split; [| split].
  - unfold location. simpl. rewrite (bind_ok _ _ _ (new_geom_run _ _)), init_run.
    eexists. eexists. split; [reflexivity |]. simpl.
    repeat split; lia.
  - intros Hp. unfold location. rewrite Hp. reflexivity.
  - intros Hl. unfold location. rewrite Hl.
    rewrite (bind_ok _ _ _ (new_geom_run _ _)), init_run.
    eexists. eexists. split; reflexivity.
Qed.

(** *** [as_wgs84] and [as_utm] *)

(** C5. [as_wgs84] returns the wrapper itself exactly when its reference is
    WGS-84 and is [transform(WGS_84)] otherwise.  [as_utm] takes the
    representative point of the geometry (of its WGS-84 transform when the
    wrapper is in another reference), computes the UTM zone of that point,
    and returns the wrapper itself only when that zone is its reference;
    otherwise, also for a wrapper in another UTM zone, it is the
    transformation to the computed zone, a new object. *)
Theorem as_utm_and_as_wgs84 (self : SrGeometry) (w : world) :
  allocated w self ->
  (_sr self = WGS_84 -> as_wgs84 self w = (Ok self, w))
  /\ (_sr self <> WGS_84 ->
      as_wgs84 self w = transform self WGS_84 true w
      /\ forall r w', as_wgs84 self w = (Ok r, w') -> oid r <> oid self /\ _sr r = WGS_84)
  /\ (_sr self = WGS_84 ->
      as_utm_rp self w
      = (Ok (geom_representative_point (gval (_base_geometry self))), w))
  /\ (_sr self <> WGS_84 ->
      forall v,
        proj_transform (_sr self) WGS_84 (gval (_base_geometry self)) = Ok v ->
        exists w1, as_utm_rp self w = (Ok (geom_representative_point v), w1))
  /\ (forall rp w1 z w2,
         as_utm_rp self w = (Ok rp, w1) ->
         utm (snd rp) (fst rp) w1 = (Ok z, w2) ->
         (z = _sr self -> as_utm self w = (Ok self, w2))
         /\ (z <> _sr self ->
             as_utm self w = transform self z true w2
             /\ forall r w3,
                 as_utm self w = (Ok r, w3) -> oid r <> oid self /\ _sr r = z)).
Proof.
  intros [Hoid Hgid]. split; [| split; [| split; [| split]]].
  - intros H. unfold as_wgs84. rewrite H, Sr_eqb_refl. reflexivity.
  - intros H. assert (Hne : WGS_84 <> _sr self) by congruence.
    apply Sr_eqb_neq in H. unfold as_wgs84. rewrite H.
    split; [reflexivity |]. intros r w' Ht.
    apply (transform_other_result _ _ _ Hne) in Ht.
    destruct Ht as (Ho & _ & _ & Hs & _). split; [lia | exact Hs].
  - intros H. unfold as_utm_rp. rewrite H, Sr_eqb_refl. reflexivity.
  - intros H v Hv. assert (Hne : WGS_84 <> _sr self) by congruence.
    apply Sr_eqb_neq in H. unfold as_utm_rp. rewrite H.
    rewrite (bind_ok _ _ _ (transform_other self true w Hne Hv)).
    eexists. reflexivity.
  - intros rp w1 z w2 Hrp Hutm. unfold as_utm.
    rewrite (bind_ok _ _ _ Hrp), (bind_ok _ _ _ Hutm). split.
    + intros ->. rewrite Sr_eqb_refl. reflexivity.
    + intros Hne. pose proof (proj2 (Sr_eqb_neq z (_sr self)) Hne) as E. rewrite E.
      split; [reflexivity |]. intros r w3 Ht.
      apply (transform_other_result _ _ _ Hne) in Ht.
      destruct Ht as (Ho & _ & _ & Hs & _).
      apply as_utm_rp_next_id in Hrp. apply utm_next_id in Hutm.
      split; [lia | exact Hs].
Qed.

(** *** [buffer] *)

Lemma SrGeometry_buffer_run
      (self base_utm : SrGeometry) (n d : float) (units : units_arg) (v : Geom)
      (w w1 : world) :
  as_utm self w = (Ok base_utm, w1) ->
  meters n units = Ok d ->
  buffered_back self base_utm d = Ok v ->
  SrGeometry_buffer self n units w
  = (Ok (mkSrGeometry (3 + next_id w1) SrGeometry_cls
           (mkGeomObj (2 + next_id w1) v) (_sr self)),
     advance 4 w1).
Proof.
  intros Hutm Hd Hv. unfold SrGeometry_buffer.
  rewrite (bind_ok _ _ _ Hutm), (bind_lift_ok _ _ Hd).
  rewrite (bind_ok _ _ _ (new_geom_run _ _)), (bind_ok _ _ _ (init_run _ _ _ _)).
  unfold buffered_back in Hv.
  destruct (Sr_eqb (_sr self) (_sr base_utm)) eqn:E.
  - apply Sr_eqb_eq in E. injection Hv as <-.
    rewrite transform_same by (simpl; exact E).
    rewrite copy_run. simpl. rewrite E. reflexivity.
  - apply Sr_eqb_neq in E.
    rewrite (@transform_other _ (_sr self) true v); [reflexivity | exact E | exact Hv].
Qed.

(** C2, as the code has it.  [buffer] converts the distance with [meters],
    takes the wrapper to its UTM zone with [as_utm], buffers the UTM
    geometry, wraps the result with the UTM reference and transforms it
    back: the wrapper it returns has the reference of the receiver, but it
    is an instance of the base class [SrGeometry], never of [SrPolygon],
    also when the receiver is an [SrPoint], whose [buffer] is annotated to
    return an [SrPolygon] and casts to it. *)
Theorem buffer_returns_the_base_class
        (self base_utm : SrGeometry) (n d : float) (units : units_arg) (v : Geom)
        (w w1 : world) :
  as_utm self w = (Ok base_utm, w1) ->
  meters n units = Ok d ->
  buffered_back self base_utm d = Ok v ->
  exists r w2,
    buffer self n units w = (Ok r, w2)
    /\ gval (_base_geometry r) = v
    /\ _sr r = _sr self
    /\ ob_cls r = SrGeometry_cls
    /\ ob_cls r <> SrPolygon_cls.
Proof.
  intros Hutm Hd Hv.
  pose proof (SrGeometry_buffer_run self n units w Hutm Hd Hv) as Hrun.
  exists (mkSrGeometry (3 + next_id w1) SrGeometry_cls
            (mkGeomObj (2 + next_id w1) v) (_sr self)).
  exists (advance 4 w1).
  split.
  - unfold buffer, cast. destruct (ob_cls self); exact Hrun.
  - simpl. repeat split. discriminate.
Qed.

(** C7. A units value without an entry in [_meter_conversions] makes the
    conversion raise the lookup error of the table ([KeyError], the
    UnknownUnitsError of the specification), and [buffer] hands it to its
    caller as it is, once [as_utm] has returned: nothing is buffered,
    nothing is built and nothing handles the error, so [buffer] never
    returns a wrapper. *)
Theorem unknown_units_raise (self : SrGeometry) (n : float) (units : units_arg) (w : world) :
  has_conversion units = false ->
  meters n units = Raise KeyError
  /\ (forall base_utm w1,
         as_utm self w = (Ok base_utm, w1) ->
         buffer self n units w = (Raise KeyError, w1))
  /\ (forall r w', buffer self n units w <> (Ok r, w')).
Proof.
  intros Hno. pose proof (meters_unknown_units n units Hno) as Hm.
  assert (Hb : buffer self n units w = SrGeometry_buffer self n units w)
    by (unfold buffer, cast; destruct (ob_cls self); reflexivity).
  split; [exact Hm |]. split.
  - intros base_utm w1 Hutm. rewrite Hb. unfold SrGeometry_buffer.
    rewrite (bind_ok _ _ _ Hutm), (bind_lift_raise _ _ Hm). reflexivity.
  - intros r w'. rewrite Hb. unfold SrGeometry_buffer.
    destruct (as_utm self w) as [[base_utm | e] w1] eqn:Hutm.
    + rewrite (bind_ok _ _ _ Hutm), (bind_lift_raise _ _ Hm). discriminate.
    + rewrite (bind_raise _ _ _ Hutm). discriminate.
Qed.

(** *** [export] and [load] *)

(** [load] on a mapping with the three entries [export] writes. *)
Lemma load_three_entries
      (cls_ c : cls) (tag m : pyval) (s : Sr) (v : Geom) (w : world) :
  pycls tag = Ok c ->
  geom_shape m = Ok v ->
  load cls_ (PDict [("__type__", tag); ("base_geometry", m); ("sr_", _asdict s)]) w
  = (Ok (Some (mkSrGeometry (S (next_id w)) c (mkGeomObj (next_id w) v) s)),
     advance 2 w).
Proof.
  intros Hc Hv.
  set (data := PDict [("__type__", tag); ("base_geometry", m); ("sr_", _asdict s)]).
  assert (Hb : py_bool data = true) by reflexivity.
  assert (Hcls : load_cls cls_ data = Ok c).
  { unfold load_cls.
    replace (getitem data "__type__") with (Ok tag) by reflexivity.
    rewrite Hc. reflexivity. }
  assert (Hm : dict_get data "base_geometry" = Ok m) by reflexivity.
  assert (Hk : dict_get data "sr_" = Ok (_asdict s)) by reflexivity.
  unfold load. rewrite Hb. cbv [negb].
  rewrite (bind_lift_ok _ _ Hcls), (bind_lift_ok _ _ Hm), (bind_lift_ok _ _ Hv).
  rewrite (bind_ok _ _ _ (new_geom_run _ _)).
  rewrite (bind_lift_ok _ _ Hk), (bind_lift_ok _ _ (Sr_of_kwargs_asdict s)).
  rewrite (bind_ok _ _ _ (init_run _ _ _ _)).
  reflexivity.
Qed.

(** What the JSON encoder and decoder make of an export. *)
Lemma json_roundtrip_export (self : SrGeometry) (mj : pyval) :
  json_roundtrip (geom_mapping (gval (_base_geometry self))) = Ok mj ->
  json_roundtrip (export self)
  = Ok (PDict [("__type__", PStr (pyfqn (ob_cls self)));
               ("base_geometry", mj);
               ("sr_", _asdict (_sr self))]).
Proof.
  intros Hm. unfold export, _asdict. cbn. rewrite Hm. reflexivity.
Qed.

Lemma eq_read_back (o self : SrGeometry) :
  _sr o = _sr self ->
  geom_bool (gval (_base_geometry o)) = geom_bool (gval (_base_geometry self)) ->
  (geom_bool (gval (_base_geometry self)) = true ->
   geom_equals (gval (_base_geometry o)) (gval (_base_geometry self)) = true) ->
  __eq__ o (as_obj self) = Ok true.
Proof.
  intros Hsr Hb He. rewrite eq_wrappers, Hsr, Sr_eqb_refl, Hb. simpl.
  destruct (geom_bool (gval (_base_geometry self))).
  - rewrite He; reflexivity.
  - reflexivity.
Qed.

(** C3. When the engine reads the interchange mapping of the geometry back
    as an equal geometry, and the class named by the type tag is found,
    [load(export(w))] is a wrapper with the reference of [w] that [==]
    finds equal to [w].  The export holds JSON values only (the name of the
    class, the mapping of the geometry, the two fields of the reference):
    wherever the mapping of the geometry is itself encodable, the encoder
    accepts the export, and loading the decoded text gives a wrapper equal
    to [w] as well. *)
Theorem load_export_roundtrip
        (self : SrGeometry) (cls_ c : cls) (mj : pyval) (w : world) :
  pycls (PStr (pyfqn (ob_cls self))) = Ok c ->
  reads_back (gval (_base_geometry self)) (geom_mapping (gval (_base_geometry self))) ->
  json_roundtrip (geom_mapping (gval (_base_geometry self))) = Ok mj ->
  reads_back (gval (_base_geometry self)) mj ->
  (exists o w',
      load cls_ (export self) w = (Ok (Some o), w')
      /\ _sr o = _sr self
      /\ __eq__ o (as_obj self) = Ok true)
  /\ json_compatible (export self) = true
  /\ (exists data o w',
         json_roundtrip (export self) = Ok data
         /\ load cls_ data w = (Ok (Some o), w')
         /\ _sr o = _sr self
         /\ __eq__ o (as_obj self) = Ok true).
Proof.
  intros Hc (g1 & Hs1 & Hb1 & He1) Hj (g2 & Hs2 & Hb2 & He2).
  split; [| split].
  - unfold export. rewrite (@load_three_entries cls_ c _ _ (_sr self) g1 w Hc Hs1).
    eexists. eexists. split; [reflexivity |]. split; [reflexivity |].
    apply eq_read_back; simpl; [reflexivity | exact Hb1 | exact He1].
  - unfold json_compatible. rewrite (json_roundtrip_export self Hj). reflexivity.
  - rewrite (json_roundtrip_export self Hj).
    eexists. eexists. eexists. split; [reflexivity |].
    rewrite (@load_three_entries cls_ c _ _ (_sr self) g2 w Hc Hs2).
    split; [reflexivity |]. split; [reflexivity |].
    apply eq_read_back; simpl; [reflexivity | exact Hb2 | exact He2].
Qed.

Lemma dict_get_entry (k : string) (kv : list (string * pyval)) :
  dict_get (PDict kv) k = Ok (entry k kv).
Proof. unfold dict_get, entry. destruct (assoc k kv); reflexivity. Qed.

Lemma py_bool_dict (kv : list (string * pyval)) :
  kv <> [] -> py_bool (PDict kv) = true.
Proof. destruct kv as [| p rest]; [congruence | reflexivity]. Qed.

(** C9, as the code has it.  [load] returns [None] for an empty or absent
    mapping.  Otherwise the class it instantiates is the one the type tag
    resolves to; without a tag, or when resolving the tag raises
    [KeyError], it is the class [load] was called on, which is the base
    class only for [SrGeometry.load]; any other failure of the resolution
    is raised to the caller.  The instance is built by the constructor of
    that class from [shape] of the geometry entry and from [Sr] built of
    the fields of the reference entry. *)
Theorem load_builds_the_resolved_class (cls_ : cls) (w : world) :
  (forall data, py_bool data = false -> load cls_ data w = (Ok None, w))
  /\ (forall kv c v s,
         kv <> [] ->
         load_cls cls_ (PDict kv) = Ok c ->
         geom_shape (entry "base_geometry" kv) = Ok v ->
         Sr_of_kwargs (entry "sr_" kv) = Ok s ->
         exists o w',
           load cls_ (PDict kv) w = (Ok (Some o), w')
           /\ ob_cls o = c
           /\ gval (_base_geometry o) = v
           /\ _sr o = s)
  /\ (forall kv,
         (assoc "__type__" kv = None -> load_cls cls_ (PDict kv) = Ok cls_)
         /\ (forall tag c,
               assoc "__type__" kv = Some tag -> pycls tag = Ok c ->
               load_cls cls_ (PDict kv) = Ok c)
         /\ (forall tag,
               assoc "__type__" kv = Some tag -> pycls tag = Raise KeyError ->
               load_cls cls_ (PDict kv) = Ok cls_)
         /\ (forall tag e,
               assoc "__type__" kv = Some tag -> pycls tag = Raise e ->
               e <> KeyError ->
               load_cls cls_ (PDict kv) = Raise e
               /\ (kv <> [] -> load cls_ (PDict kv) w = (Raise e, w)))).
Proof.
  split; [| split].
  - intros data Hb. unfold load. rewrite Hb. reflexivity.
  - intros kv c v s Hkv Hcls Hv Hs. unfold load.
    rewrite (py_bool_dict Hkv). cbv [negb].
    rewrite (bind_lift_ok _ _ Hcls), (bind_lift_ok _ _ (dict_get_entry _ _)).
    rewrite (bind_lift_ok _ _ Hv), (bind_ok _ _ _ (new_geom_run _ _)).
    rewrite (bind_lift_ok _ _ (dict_get_entry _ _)), (bind_lift_ok _ _ Hs).
    rewrite (bind_ok _ _ _ (init_run _ _ _ _)).
    eexists. eexists. split; [reflexivity |]. simpl. repeat split.
  - intros kv. unfold load_cls, getitem. split; [| split; [| split]].
    + intros ->. reflexivity.
    + intros tag c -> ->. reflexivity.
    + intros tag -> ->. reflexivity.
    + intros tag e Ht He Hne.
      assert (Hcls : load_cls cls_ (PDict kv) = Raise e).
      { unfold load_cls, getitem. rewrite Ht, He. destruct e; congruence. }
      split.
      * exact Hcls.
      * intros Hkv. unfold load. rewrite (py_bool_dict Hkv). cbv [negb].
        rewrite (bind_lift_raise _ _ Hcls). reflexivity.
Qed.


End WithEngines.

End GeometryFacts.

(** ** The properties on the test double *)

Module Examples.

Import Distance SpatialRef Geometry Fake.
Import DistanceFacts SpatialRefFacts GeometryFacts.

(** The fixture of the package's test, built in a new process. *)
Lemma from_lat_lon_fixture :
  from_lat_lon 45.553670%float (-94.142430)%float world0 = (Ok wgs84_point, world2).
Proof. reflexivity. Qed.

(** [w.transform(w.sr)] on the point of the package's test: a copy equal to
    it, the point itself without copying, and a new wrapper in zone 15. *)
Lemma transform_same_reference_and_other_witness :
  allocated world2 wgs84_point
  /\ (exists r w',
         transform wgs84_point WGS_84 true world2 = (Ok r, w')
         /\ oid r <> oid wgs84_point
         /\ __eq__ r (as_obj wgs84_point) = Ok true)
  /\ transform wgs84_point WGS_84 false world2 = (Ok wgs84_point, world2)
  /\ (exists r w',
         transform wgs84_point (mkSr 32615 "epsg") true world2 = (Ok r, w')
         /\ _sr r = mkSr 32615 "epsg").
Proof.
  assert (H : allocated world2 wgs84_point) by (split; simpl; lia).
  destruct (transform_same_reference_and_other H) as (Hcopy & Hself & Hother).
  split; [exact H |]. split; [| split].
  - destruct Hcopy as (r & w' & E & Ho & _ & _ & _ & _ & Heq).
    exists r, w'. split; [exact E |]. split; [exact Ho |].
    apply Heq. intros _. reflexivity.
  - exact Hself.
  - destruct (Hother (mkSr 32615 "epsg") true _ ltac:(discriminate) eq_refl)
      as (r & w' & E & Hs & _).
    exists r, w'. split; [exact E | exact Hs].
Defined.

(** An [SrPoint] and an [SrPolyline] transformed to zone 15 come back as
    plain [SrGeometry]. *)
Lemma transform_returns_the_base_class_witness :
  (exists r w',
      transform wgs84_point (mkSr 32615 "epsg") true world2 = (Ok r, w')
      /\ ob_cls wgs84_point = SrPoint_cls /\ ob_cls r = SrGeometry_cls)
  /\ (exists r w',
         transform wgs84_line (mkSr 32615 "epsg") true world2 = (Ok r, w')
         /\ ob_cls wgs84_line = SrPolyline_cls /\ ob_cls r = SrGeometry_cls).
Proof.
  split.
  - destruct (@transform_returns_the_base_class Fake.engine wgs84_point (mkSr 32615 "epsg") true _ world2
                ltac:(discriminate) ltac:(discriminate) eq_refl)
      as (r & w' & E & Hc & _).
    exists r, w'. split; [exact E |]. split; [reflexivity | exact Hc].
  - destruct (@transform_returns_the_base_class Fake.engine wgs84_line (mkSr 32615 "epsg") true _ world2
                ltac:(discriminate) ltac:(discriminate) eq_refl)
      as (r & w' & E & Hc & _).
    exists r, w'. split; [exact E |]. split; [reflexivity | exact Hc].
Defined.

(** A point held in UTM zone 16 that lies in zone 15 is not returned as it
    is: [as_utm] transforms it to zone 15. *)
Lemma as_utm_and_as_wgs84_witness :
  allocated world2 utm16_point
  /\ exists r w3,
       as_utm utm16_point world2 = (Ok r, w3)
       /\ oid r <> oid utm16_point
       /\ _sr r = mkSr 32615 "epsg".
Proof.
  assert (H : allocated world2 utm16_point) by (split; simpl; lia).
  split; [exact H |].
  destruct (as_utm_and_as_wgs84 H) as (_ & _ & _ & _ & Hutm).
  destruct (Hutm _ _ (mkSr 32615 "epsg") _ eq_refl eq_refl) as [_ Hother].
  destruct (Hother ltac:(discriminate)) as [_ Hnew].
  eexists. eexists. split; [reflexivity |].
  eapply Hnew. reflexivity.
Defined.

(** Buffering the point of the package's test by 1000 metres returns an
    [SrGeometry] in WGS-84. *)
Lemma buffer_returns_the_base_class_witness :
  ob_cls wgs84_point = SrPoint_cls
  /\ exists r w2,
       buffer wgs84_point 1000%float (UnitsMember METERS) world2 = (Ok r, w2)
       /\ _sr r = WGS_84
       /\ ob_cls r = SrGeometry_cls
       /\ ob_cls r <> SrPolygon_cls.
Proof.
  split; [reflexivity |].
  destruct (@buffer_returns_the_base_class Fake.engine wgs84_point _ 1000%float _
              (UnitsMember METERS) _ world2 _ eq_refl eq_refl eq_refl)
    as (r & w2 & E & _ & Hs & Hc & Hn).
  exists r, w2. split; [exact E |]. split; [exact Hs |]. split; [exact Hc | exact Hn].
Defined.

(** The package's own test: the point exported, encoded, decoded and
    loaded by [SrGeometry.load] equals the point. *)
Lemma load_export_roundtrip_witness :
  exists data o w',
    json_roundtrip (export wgs84_point) = Ok data
    /\ load SrGeometry_cls data world2 = (Ok (Some o), w')
    /\ __eq__ o (as_obj wgs84_point) = Ok true.
Proof.
  assert (Hread : forall m,
             geom_shape m = Ok (gval (_base_geometry wgs84_point)) ->
             reads_back (gval (_base_geometry wgs84_point)) m).
  { intros m Hm. exists (gval (_base_geometry wgs84_point)).
    split; [exact Hm |]. split; [reflexivity |]. intros _. reflexivity. }
  pose (decoded := PDict [("type", PStr "MultiPoint");
                          ("coordinates",
                           PList [PList [PFloat (-94.142430)%float; PFloat 45.553670%float]])]).
  destruct (@load_export_roundtrip Fake.engine Fake.names wgs84_point
              SrGeometry_cls SrPoint_cls decoded world2
              eq_refl (Hread (multipoint_mapping (gval (_base_geometry wgs84_point))) eq_refl)
              eq_refl (Hread decoded eq_refl))
    as (_ & _ & data & o & w' & Hj & Hl & _ & He).
  exists data, o, w'. split; [exact Hj |]. split; [exact Hl | exact He].
Defined.

(** Miles have no entry in the table. *)
Lemma unknown_units_raise_witness :
  has_conversion (UnitsOther "miles") = false
  /\ meters 5%float (UnitsOther "miles") = Raise KeyError
  /\ exists w1,
       buffer wgs84_point 5%float (UnitsOther "miles") world2 = (Raise KeyError, w1).
Proof.
  split; [reflexivity |].
  destruct (@unknown_units_raise Fake.engine wgs84_point 5%float (UnitsOther "miles") world2 eq_refl)
    as (Hm & Hb & _).
  split; [exact Hm |].
  eexists. eapply Hb. reflexivity.
Defined.


(** C9 as it is stated fails: [SrPoint.load] of a mapping without a type
    tag builds an [SrPoint], not an instance of the base class. *)
Lemma load_untagged_counterexample :
  getitem untagged "__type__" = Raise KeyError
  /\ exists o w',
       load SrPoint_cls untagged world0 = (Ok (Some o), w')
       /\ ob_cls o = SrPoint_cls
       /\ ob_cls o <> SrGeometry_cls.
Proof.
  split; [reflexivity |].
  eexists. eexists. split; [reflexivity |]. simpl. split; [reflexivity | discriminate].
Qed.

End Examples.

(** ** Projections and transformation functions *)

Module ProjectionFacts.

Import SpatialRef Projections SpatialRefFacts.

Section WithProj.

Context {pe : ProjEngine}.

Lemma key_eqb_eq (a b : Z * string) : key_eqb a b = true <-> a = b.
Proof.
  unfold key_eqb. rewrite andb_true_iff, Z.eqb_eq, String.eqb_eq.
  destruct a as [i x], b as [j y]; simpl. split.
  - intros [-> ->]. reflexivity.
  - intros H. injection H as -> ->. split; reflexivity.
Qed.

Lemma key_eqb_refl (a : Z * string) : key_eqb a a = true.
Proof. apply key_eqb_eq. reflexivity. Qed.

Lemma pair_eqb_eq (a b : Sr * Sr) : pair_eqb a b = true <-> a = b.
Proof.
  unfold pair_eqb. rewrite andb_true_iff, !Sr_eqb_eq.
  destruct a as [a1 a2], b as [b1 b2]; simpl. split.
  - intros [-> ->]. reflexivity.
  - intros H. injection H as -> ->. split; reflexivity.
Qed.

Lemma pair_eqb_refl (a : Sr * Sr) : pair_eqb a a = true.
Proof. apply pair_eqb_eq. reflexivity. Qed.

Lemma sr_key (s : Sr) : mkSr (fst (srid s, authority s)) (snd (srid s, authority s)) = s.
Proof. destruct s. reflexivity. Qed.

(** An entry found by a lookup is an entry of the dictionary. *)
Lemma kv_lookup_In {K V : Type} (eqb : K -> K -> bool) (k : K) (v : V) (d : list (K * V)) :
  (forall a b, eqb a b = true -> a = b) ->
  kv_lookup eqb k d = Some v -> In (k, v) d.
Proof.
  intros Heq. induction d as [| [k' v'] rest IH]; simpl; [discriminate |].
  destruct (eqb k k') eqn:E.
  - intros H. injection H as ->. apply Heq in E. subst k'. left. reflexivity.
  - intros H. right. apply IH. exact H.
Qed.

(** A new entry under a key that was absent hides no entry. *)
Lemma kv_lookup_cons_absent {K V : Type} (eqb : K -> K -> bool) (k k0 : K) (v v0 : V)
      (d : list (K * V)) :
  (forall a b, eqb a b = true -> a = b) ->
  kv_lookup eqb k0 d = None ->
  kv_lookup eqb k d = Some v ->
  kv_lookup eqb k ((k0, v0) :: d) = Some v.
Proof.
  intros Heq Habs Hk. simpl. destruct (eqb k k0) eqn:E; [| exact Hk].
  apply Heq in E. subst k0. congruence.
Qed.

(** *** What [proj] computes *)

Lemma proj_hit (s : Sr) (p : Proj) (c : caches) :
  kv_lookup key_eqb (srid s, authority s) (_proj_cache c) = Some p ->
  proj s c = (Ok p, c).
Proof. intros H. unfold proj. rewrite H. reflexivity. Qed.

Lemma proj_miss_ok (s : Sr) (p : Proj) (c : caches) :
  kv_lookup key_eqb (srid s, authority s) (_proj_cache c) = None ->
  Proj_init (init_string s) = Ok p ->
  proj s c
  = (Ok p, mkCaches (((srid s, authority s), p) :: _proj_cache c)
                    (_transform_fn_cache c) (init_string s :: proj_calls c)).
Proof. intros H Hp. unfold proj. rewrite H, Hp. reflexivity. Qed.

Lemma proj_miss_raise (s : Sr) (e : exn) (c : caches) :
  kv_lookup key_eqb (srid s, authority s) (_proj_cache c) = None ->
  Proj_init (init_string s) = Raise e ->
  proj s c
  = (Raise e, mkCaches (_proj_cache c) (_transform_fn_cache c)
                       (init_string s :: proj_calls c)).
Proof. intros H Hp. unfold proj. rewrite H, Hp. reflexivity. Qed.

(** After [proj] returned a projection it is in the cache, the functions
    are untouched, and the state holds all it held. *)
Lemma proj_ok_inv (s : Sr) (p : Proj) (c c1 : caches) :
  proj s c = (Ok p, c1) ->
  kv_lookup key_eqb (srid s, authority s) (_proj_cache c1) = Some p
  /\ _transform_fn_cache c1 = _transform_fn_cache c
  /\ extends c c1
  /\ (c1 = c \/ (kv_lookup key_eqb (srid s, authority s) (_proj_cache c) = None
                 /\ Proj_init (init_string s) = Ok p
                 /\ _proj_cache c1 = ((srid s, authority s), p) :: _proj_cache c
                 /\ proj_calls c1 = init_string s :: proj_calls c)).
Proof.
  unfold proj.
  destruct (kv_lookup key_eqb (srid s, authority s) (_proj_cache c)) as [q |] eqn:E.
  - intros H. injection H as <- <-. split; [exact E |]. split; [reflexivity |].
    split; [| left; reflexivity]. split; intros k v Hk; exact Hk.
  - destruct (Proj_init (init_string s)) as [q | e] eqn:Hq; [| discriminate].
    intros H. injection H as <- <-. simpl.
    rewrite key_eqb_refl. split; [reflexivity |]. split; [reflexivity |].
    split.
    + split; simpl.
      * intros k v Hk.
        apply kv_lookup_cons_absent;
          [intros a b; apply key_eqb_eq | exact E | exact Hk].
      * intros k v Hk. exact Hk.
    + right. repeat split; reflexivity.
Qed.

(** A failed [proj] leaves both dictionaries as they were. *)
Lemma proj_raise_inv (s : Sr) (e : exn) (c c1 : caches) :
  proj s c = (Raise e, c1) ->
  kv_lookup key_eqb (srid s, authority s) (_proj_cache c) = None
  /\ Proj_init (init_string s) = Raise e
  /\ _proj_cache c1 = _proj_cache c
  /\ _transform_fn_cache c1 = _transform_fn_cache c
  /\ proj_calls c1 = init_string s :: proj_calls c.
Proof.
  unfold proj.
  destruct (kv_lookup key_eqb (srid s, authority s) (_proj_cache c)) as [q |] eqn:E;
    [discriminate |].
  destruct (Proj_init (init_string s)) as [q | e'] eqn:Hq; [discriminate |].
  intros H. injection H as <- <-. simpl. repeat split; reflexivity.
Qed.

Lemma extends_refl (c : caches) : extends c c.
Proof. split; intros k v H; exact H. Qed.

Lemma extends_trans (c1 c2 c3 : caches) :
  extends c1 c2 -> extends c2 c3 -> extends c1 c3.
Proof.
  intros [Hp1 Hf1] [Hp2 Hf2]. split; intros k v H.
  - apply Hp2, Hp1, H.
  - apply Hf2, Hf1, H.
Qed.

(** *** What [_transform_fn] computes *)

Lemma transform_fn_hit (a b : Sr) (fn : transform_fn) (c : caches) :
  kv_lookup pair_eqb (a, b) (_transform_fn_cache c) = Some fn ->
  _transform_fn a b c = (Ok fn, c).
Proof. intros H. unfold _transform_fn. rewrite H. reflexivity. Qed.

Lemma transform_fn_miss (a b : Sr) (p1 p2 : Proj) (c c1 c2 : caches) :
  kv_lookup pair_eqb (a, b) (_transform_fn_cache c) = None ->
  proj a c = (Ok p1, c1) ->
  proj b c1 = (Ok p2, c2) ->
  _transform_fn a b c
  = (Ok (mkPartial p1 p2),
     mkCaches (_proj_cache c2) (((a, b), mkPartial p1 p2) :: _transform_fn_cache c2)
              (proj_calls c2)).
Proof. intros H H1 H2. unfold _transform_fn. rewrite H, H1, H2. reflexivity. Qed.

(** The two ways [_transform_fn] returns a function. *)
Lemma transform_fn_ok_inv (a b : Sr) (fn : transform_fn) (c c' : caches) :
  _transform_fn a b c = (Ok fn, c') ->
  (kv_lookup pair_eqb (a, b) (_transform_fn_cache c) = Some fn /\ c' = c)
  \/ (kv_lookup pair_eqb (a, b) (_transform_fn_cache c) = None
      /\ exists c1 c2,
          proj a c = (Ok (fn_from fn), c1)
          /\ proj b c1 = (Ok (fn_to fn), c2)
          /\ c' = mkCaches (_proj_cache c2) (((a, b), fn) :: _transform_fn_cache c2)
                           (proj_calls c2)).
Proof.
  unfold _transform_fn.
  destruct (kv_lookup pair_eqb (a, b) (_transform_fn_cache c)) as [g |] eqn:E.
  - intros H. injection H as <- <-. left. split; reflexivity.
  - destruct (proj a c) as [[p1 | e] c1] eqn:H1; [| discriminate].
    destruct (proj b c1) as [[p2 | e] c2] eqn:H2; [| discriminate].
    intros H. injection H as <- <-. right. split; [reflexivity |].
    exists c1, c2. repeat split; assumption.
Qed.

(** The two ways [_transform_fn] raises: in either the functions are as
    they were. *)
Lemma transform_fn_raise_inv (a b : Sr) (e : exn) (c c' : caches) :
  _transform_fn a b c = (Raise e, c') ->
  kv_lookup pair_eqb (a, b) (_transform_fn_cache c) = None
  /\ (proj a c = (Raise e, c')
      \/ exists p1 c1, proj a c = (Ok p1, c1) /\ proj b c1 = (Raise e, c')).
Proof.
  unfold _transform_fn.
  destruct (kv_lookup pair_eqb (a, b) (_transform_fn_cache c)) as [g |] eqn:E;
    [discriminate |].
  destruct (proj a c) as [[p1 | e1] c1] eqn:H1.
  - destruct (proj b c1) as [[p2 | e2] c2] eqn:H2; [discriminate |].
    intros H. injection H as <- <-. split; [reflexivity |]. right.
    exists p1, c1. split; [reflexivity | exact H2].
  - intros H. injection H as <- <-. split; [reflexivity |]. left. reflexivity.
Qed.

(** *** The invariants of the two dictionaries *)

Lemma proj_keeps_ok (s : Sr) (r : result Proj) (c c1 : caches) :
  caches_ok c -> proj s c = (r, c1) -> caches_ok c1.
Proof.
  intros [Hp Hf] H. destruct r as [p | e].
  - destruct (proj_ok_inv s c H) as (_ & Hfn & _ & [-> | (_ & Hi & Hc & _)]).
    + split; assumption.
    + split.
      * intros k q Hin. rewrite Hc in Hin. destruct Hin as [Heq | Hin].
        -- injection Heq as <- <-. rewrite sr_key. exact Hi.
        -- apply Hp. exact Hin.
      * intros x y fn Hin. rewrite Hfn in Hin. apply Hf in Hin. exact Hin.
  - destruct (proj_raise_inv s c H) as (_ & _ & Hc & Hfn & _).
    split.
    + intros k q Hin. rewrite Hc in Hin. apply Hp. exact Hin.
    + intros x y fn Hin. rewrite Hfn in Hin. apply Hf in Hin. exact Hin.
Qed.

Lemma proj_keeps_backed (s : Sr) (r : result Proj) (c c1 : caches) :
  fn_backed c -> proj s c = (r, c1) -> fn_backed c1.
Proof.
  intros Hb H. destruct r as [p | e].
  - destruct (proj_ok_inv s c H) as (_ & Hfn & [Hext _] & _).
    intros x y fn Hin. rewrite Hfn in Hin. destruct (Hb x y fn Hin) as [Hx Hy].
    split; apply Hext; assumption.
  - destruct (proj_raise_inv s c H) as (_ & _ & Hc & Hfn & _).
    intros x y fn Hin. rewrite Hfn in Hin. rewrite Hc. apply Hb. exact Hin.
Qed.

Lemma proj_extends (s : Sr) (r : result Proj) (c c1 : caches) :
  proj s c = (r, c1) -> extends c c1.
Proof.
  intros H. destruct r as [p | e].
  - apply (proj_ok_inv s c H).
  - destruct (proj_raise_inv s c H) as (_ & _ & Hc & Hfn & _).
    split; intros k v Hk; [rewrite Hc | rewrite Hfn]; exact Hk.
Qed.

Lemma transform_fn_extends (a b : Sr) (r : result transform_fn) (c c' : caches) :
  _transform_fn a b c = (r, c') -> extends c c'.
Proof.
  intros H. destruct r as [fn | e].
  - destruct (transform_fn_ok_inv a b c H) as [[_ ->] | (Habs & c1 & c2 & H1 & H2 & ->)].
    + apply extends_refl.
    + pose proof (@proj_extends _ _ _ _ H1) as E1. pose proof (@proj_extends _ _ _ _ H2) as E2.
      destruct (@extends_trans _ _ _ E1 E2) as [Hp Hf]. split; simpl.
      * exact Hp.
      * intros k v Hk. apply kv_lookup_cons_absent.
        -- intros x y. apply pair_eqb_eq.
        -- destruct (proj_ok_inv a c H1) as (_ & F1 & _).
           destruct (proj_ok_inv b c1 H2) as (_ & F2 & _).
           rewrite F2, F1. exact Habs.
        -- apply Hf. exact Hk.
  - destruct (transform_fn_raise_inv a b c H) as (_ & [H1 | (p1 & c1 & H1 & H2)]).
    + apply (@proj_extends _ _ _ _ H1).
    + apply (@extends_trans _ _ _ (@proj_extends _ _ _ _ H1) (@proj_extends _ _ _ _ H2)).
Qed.

Lemma transform_fn_keeps_ok (a b : Sr) (r : result transform_fn) (c c' : caches) :
  caches_ok c -> _transform_fn a b c = (r, c') -> caches_ok c'.
Proof.
  intros Hok H. destruct r as [fn | e].
  - destruct (transform_fn_ok_inv a b c H) as [[_ ->] | (Habs & c1 & c2 & H1 & H2 & ->)];
      [exact Hok |].
    pose proof (@proj_keeps_ok _ _ _ _ Hok H1) as Hok1.
    pose proof (@proj_keeps_ok _ _ _ _ Hok1 H2) as [Hp2 Hf2].
    destruct (proj_ok_inv a c H1) as (L1 & _).
    destruct (proj_ok_inv b c1 H2) as (L2 & _).
    apply kv_lookup_In in L1; [| intros x y; apply key_eqb_eq].
    apply kv_lookup_In in L2; [| intros x y; apply key_eqb_eq].
    destruct Hok1 as [Hp1 _].
    apply Hp1 in L1. apply Hp2 in L2. rewrite sr_key in L1, L2.
    split; simpl; [exact Hp2 |].
    intros x y g [Heq | Hin].
    + injection Heq as <- <- <-. split; assumption.
    + apply Hf2. exact Hin.
  - destruct (transform_fn_raise_inv a b c H) as (_ & [H1 | (p1 & c1 & H1 & H2)]).
    + apply (@proj_keeps_ok _ _ _ _ Hok H1).
    + apply (@proj_keeps_ok _ _ _ _ (@proj_keeps_ok _ _ _ _ Hok H1) H2).
Qed.

Lemma transform_fn_keeps_backed (a b : Sr) (r : result transform_fn) (c c' : caches) :
  fn_backed c -> _transform_fn a b c = (r, c') -> fn_backed c'.
Proof.
  intros Hb H. destruct r as [fn | e].
  - destruct (transform_fn_ok_inv a b c H) as [[_ ->] | (Habs & c1 & c2 & H1 & H2 & ->)];
      [exact Hb |].
    pose proof (@proj_keeps_backed _ _ _ _ Hb H1) as Hb1.
    pose proof (@proj_keeps_backed _ _ _ _ Hb1 H2) as Hb2.
    destruct (proj_ok_inv a c H1) as (L1 & _).
    destruct (proj_ok_inv b c1 H2) as (L2 & _ & [E2 _] & _).
    intros x y g [Heq | Hin]; simpl.
    + injection Heq as <- <- <-. split; [apply E2; exact L1 | exact L2].
    + apply Hb2. exact Hin.
  - destruct (transform_fn_raise_inv a b c H) as (_ & [H1 | (p1 & c1 & H1 & H2)]).
    + apply (@proj_keeps_backed _ _ _ _ Hb H1).
    + apply (@proj_keeps_backed _ _ _ _ (@proj_keeps_backed _ _ _ _ Hb H1) H2).
Qed.

(** *** Properties of [Sr.proj] *)

(** X1. Once [Sr.proj] has returned a projection, every later access to it
    returns that same projection, however much the dictionaries have grown
    since: [Proj] is not called again and nothing changes. *)
Theorem proj_is_memoized (s : Sr) (p : Proj) (c c1 c2 : caches) :
  proj s c = (Ok p, c1) ->
  extends c1 c2 ->
  proj s c2 = (Ok p, c2)
  /\ (length (proj_calls c1) <= S (length (proj_calls c)))%nat.
Proof.
  intros H [Hext _].
  destruct (proj_ok_inv s c H) as (Hl & _ & _ & Hcase).
  split.
  - apply proj_hit. apply Hext. exact Hl.
  - destruct Hcase as [-> | (_ & _ & _ & ->)]; simpl; lia.
Qed.

(** X2. A reference [Proj] rejects is not remembered: the failed access
    leaves both dictionaries as they were, and the next access calls
    [Proj] again and fails in the same way. *)
Theorem proj_failure_is_not_cached (s : Sr) (e : exn) (c c1 : caches) :
  proj s c = (Raise e, c1) ->
  _proj_cache c1 = _proj_cache c
  /\ _transform_fn_cache c1 = _transform_fn_cache c
  /\ exists c2,
      proj s c1 = (Raise e, c2)
      /\ proj_calls c2 = init_string s :: init_string s :: proj_calls c.
Proof.
  intros H. destruct (proj_raise_inv s c H) as (Habs & He & Hc & Hfn & Hcalls).
  split; [exact Hc |]. split; [exact Hfn |].
  eexists. split.
  - apply proj_miss_raise; [rewrite Hc; exact Habs | exact He].
  - simpl. rewrite Hcalls. reflexivity.
Qed.

(** *** Properties of the two dictionaries *)

(** X3. [Sr.proj] and [_transform_fn] keep the dictionaries sound and only
    add to them: whatever either returns or raises, every entry held
    before is still held under its key, every cached projection is the
    one [Proj] builds for its key, and every cached function has its two
    projections in the projection cache. *)
Theorem caches_grow_and_stay_sound (c c' : caches) :
  caches_ok c ->
  fn_backed c ->
  (exists s r, proj s c = (r, c')) \/ (exists a b r, _transform_fn a b c = (r, c')) ->
  caches_ok c' /\ fn_backed c' /\ extends c c'.
Proof.
  intros Hok Hb [(s & r & H) | (a & b & r & H)].
  - split; [apply (@proj_keeps_ok _ _ _ _ Hok H) |].
    split; [apply (@proj_keeps_backed _ _ _ _ Hb H) | apply (@proj_extends _ _ _ _ H)].
  - split; [apply (@transform_fn_keeps_ok _ _ _ _ _ Hok H) |].
    split; [apply (@transform_fn_keeps_backed _ _ _ _ _ Hb H)
           | apply (@transform_fn_extends _ _ _ _ _ H)].
Qed.

(** *** Properties of [_transform_fn] *)

(** X4. With sound dictionaries, the function [_transform_fn(from_, to)]
    returns is bound to the projection of [from_] and the projection of
    [to], in that order, and it is remembered: the same call made again
    returns it and changes nothing. *)
Theorem transform_fn_binds_and_memoizes
        (a b : Sr) (fn : transform_fn) (c c1 : caches) :
  caches_ok c ->
  _transform_fn a b c = (Ok fn, c1) ->
  Proj_init (init_string a) = Ok (fn_from fn)
  /\ Proj_init (init_string b) = Ok (fn_to fn)
  /\ _transform_fn a b c1 = (Ok fn, c1).
Proof.
  intros Hok H.
  pose proof (@transform_fn_keeps_ok _ _ _ _ _ Hok H) as [_ Hf1].
  assert (Hl : kv_lookup pair_eqb (a, b) (_transform_fn_cache c1) = Some fn).
  { destruct (transform_fn_ok_inv a b c H) as [[Hl ->] | (_ & c' & c'' & _ & _ & ->)].
    - exact Hl.
    - simpl. rewrite pair_eqb_refl. reflexivity. }
  pose proof Hl as Hin.
  apply kv_lookup_In in Hin; [| intros x y; apply pair_eqb_eq].
  destruct (Hf1 _ _ _ Hin) as [Ha Hb].
  split; [exact Ha |]. split; [exact Hb |].
  apply transform_fn_hit. exact Hl.
Qed.

(** X5. The direction matters: building the function from [a] to [b]
    does not provide the one from [b] to [a], which stays absent until it
    is asked for; it is then built from the two projections already
    cached, swapped, without any call to [Proj]. *)
Theorem transform_fn_reverse_is_separate
        (a b : Sr) (fn : transform_fn) (c c1 : caches) :
  fn_backed c ->
  a <> b ->
  kv_lookup pair_eqb (b, a) (_transform_fn_cache c) = None ->
  _transform_fn a b c = (Ok fn, c1) ->
  kv_lookup pair_eqb (b, a) (_transform_fn_cache c1) = None
  /\ exists c2,
      _transform_fn b a c1 = (Ok (mkPartial (fn_to fn) (fn_from fn)), c2)
      /\ proj_calls c2 = proj_calls c1
      /\ kv_lookup pair_eqb (a, b) (_transform_fn_cache c2) = Some fn.
Proof.
  intros Hb Hne Hrev H.
  assert (Hsw : pair_eqb (b, a) (a, b) = false).
  { destruct (pair_eqb (b, a) (a, b)) eqn:E; [| reflexivity].
    apply pair_eqb_eq in E. injection E as E1 E2. congruence. }
  assert (Hsw' : pair_eqb (a, b) (b, a) = false).
  { destruct (pair_eqb (a, b) (b, a)) eqn:E; [| reflexivity].
    apply pair_eqb_eq in E. injection E as E1 E2. congruence. }
  pose proof (@transform_fn_keeps_backed _ _ _ _ _ Hb H) as Hb1.
  assert (Hl : kv_lookup pair_eqb (a, b) (_transform_fn_cache c1) = Some fn
               /\ kv_lookup pair_eqb (b, a) (_transform_fn_cache c1) = None).
  { destruct (transform_fn_ok_inv a b c H) as [[Hl ->] | (_ & c' & c'' & H1 & H2 & ->)].
    - split; assumption.
    - simpl. rewrite pair_eqb_refl, Hsw. split; [reflexivity |].
      destruct (proj_ok_inv a c H1) as (_ & F1 & _).
      destruct (proj_ok_inv b c' H2) as (_ & F2 & _).
      rewrite F2, F1. exact Hrev. }
  destruct Hl as [Hl Hrev1]. split; [exact Hrev1 |].
  pose proof Hl as Hin.
  apply kv_lookup_In in Hin; [| intros x y; apply pair_eqb_eq].
  destruct (Hb1 _ _ _ Hin) as [Ha Hbb].
  eexists. split.
  - eapply transform_fn_miss;
      [exact Hrev1 | apply proj_hit; exact Hbb | apply proj_hit; exact Ha].
  - simpl. rewrite Hsw'. split; [reflexivity | exact Hl].
Qed.

(** X6. When the projection of [from_] is built and the one of [to] is
    rejected, [_transform_fn] raises what [Proj] raised and caches no
    function, but the projection of [from_] stays cached. *)
Theorem transform_fn_partial_failure
        (a b : Sr) (p1 : Proj) (e : exn) (c : caches) :
  kv_lookup pair_eqb (a, b) (_transform_fn_cache c) = None ->
  kv_lookup key_eqb (srid a, authority a) (_proj_cache c) = None ->
  kv_lookup key_eqb (srid b, authority b) (_proj_cache c) = None ->
  Proj_init (init_string a) = Ok p1 ->
  Proj_init (init_string b) = Raise e ->
  exists c',
    _transform_fn a b c = (Raise e, c')
    /\ _transform_fn_cache c' = _transform_fn_cache c
    /\ kv_lookup key_eqb (srid a, authority a) (_proj_cache c') = Some p1
    /\ kv_lookup key_eqb (srid b, authority b) (_proj_cache c') = None
    /\ proj_calls c' = init_string b :: init_string a :: proj_calls c.
Proof.
  intros Hfn Ha Hbn Hp1 He.
  assert (Hkeys : key_eqb (srid b, authority b) (srid a, authority a) = false).
  { destruct (key_eqb (srid b, authority b) (srid a, authority a)) eqn:E; [| reflexivity].
    apply key_eqb_eq in E. injection E as E1 E2.
    assert (a = b) by (destruct a, b; simpl in *; congruence).
    subst b. congruence. }
  pose proof (proj_miss_ok a c Ha Hp1) as H1.
  set (c1 := mkCaches (((srid a, authority a), p1) :: _proj_cache c)
                      (_transform_fn_cache c) (init_string a :: proj_calls c)) in H1.
  assert (Hb1 : kv_lookup key_eqb (srid b, authority b) (_proj_cache c1) = None).
  { simpl. rewrite Hkeys. exact Hbn. }
  pose proof (proj_miss_raise b c1 Hb1 He) as H2.
  eexists. split.
  - unfold _transform_fn. rewrite Hfn, H1, H2. reflexivity.
  - simpl. rewrite key_eqb_refl, Hkeys. repeat split. exact Hbn.
Qed.

End WithProj.

End ProjectionFacts.

(** ** More on spatial references *)

Module SpatialRefMore.

Import SpatialRef SpatialRefNotions SpatialRefFacts.

Lemma cache_lookup_head (i : Z) (a : string) (s : Sr) (c : list ((Z * string) * Sr)) :
  cache_lookup (i, a) (((i, a), s) :: c) = Some s.
Proof. simpl. rewrite Z.eqb_refl, String.eqb_refl. reflexivity. Qed.

(** A key that is not found is not a key of the dictionary. *)
Lemma cache_lookup_absent (k : Z * string) (c : list ((Z * string) * Sr)) :
  cache_lookup k c = None -> ~ In k (map fst c).
Proof.
  induction c as [| [k' v] rest IH]; simpl; [tauto |].
  destruct ((fst k =? fst k') && String.eqb (snd k) (snd k')) eqn:E; [discriminate |].
  intros H [Heq | Hin].
  - subst k'. rewrite Z.eqb_refl, String.eqb_refl in E. discriminate.
  - apply (IH H Hin).
Qed.

(** What [sr] does on a hit and on a miss. *)
Lemma sr_cases (i : Z) (auth : authority_arg) (w : world) :
  (exists s, cache_lookup (i, authority_of auth) (_sr_cache w) = Some s
             /\ sr i auth w = (Ok s, w))
  \/ (cache_lookup (i, authority_of auth) (_sr_cache w) = None
      /\ sr i auth w
         = (Ok (mkSr i (authority_of auth)),
            mkWorld (next_id w)
                    (((i, authority_of auth), mkSr i (authority_of auth)) :: _sr_cache w))).
Proof.
  unfold sr. fold (authority_of auth).
  destruct (cache_lookup (i, authority_of auth) (_sr_cache w)) as [s |] eqn:E.
  - left. exists s. split; reflexivity.
  - right. split; reflexivity.
Qed.

Lemma sr_hit (i : Z) (auth : authority_arg) (s : Sr) (w : world) :
  cache_lookup (i, authority_of auth) (_sr_cache w) = Some s ->
  sr i auth w = (Ok s, w).
Proof. intros H. unfold sr. fold (authority_of auth). rewrite H. reflexivity. Qed.

(** After [sr] returned, what it returned is what the cache holds. *)
Lemma sr_then_cached (i : Z) (auth : authority_arg) (r : result Sr) (w w1 : world) :
  sr i auth w = (r, w1) ->
  exists s, r = Ok s /\ cache_lookup (i, authority_of auth) (_sr_cache w1) = Some s.
Proof.
  intros H. destruct (sr_cases i auth w) as [(s & Hl & Hs) | (Hl & Hs)];
    rewrite Hs in H; injection H as <- <-.
  - exists s. split; [reflexivity | exact Hl].
  - eexists. split; [reflexivity |]. apply cache_lookup_head.
Qed.

Lemma sr_again (i : Z) (auth : authority_arg) (r : result Sr) (w w1 : world) :
  sr i auth w = (r, w1) -> sr i auth w1 = (r, w1).
Proof.
  intros H. destruct (sr_then_cached _ _ _ H) as (s & -> & Hl).
  apply sr_hit. exact Hl.
Qed.

(** [utm] is [sr] of the identifier, once the floor is known. *)
Lemma utm_is_sr (lat lon : float) (k : Z) (w : world) :
  math_floor ((lon + 180) / 6)%float = Ok k ->
  utm lat lon w = sr (hemisphere_prefix lat * 100 + (k mod 60 + 1)) (AuthEnum EPSG) w.
Proof.
  intros Hk. unfold utm. rewrite (bind_lift_ok _ _ Hk).
  destruct (band_facts (band_range k)) as (Hn & Hs & _).
  unfold hemisphere_prefix. destruct (0 <=? lat)%float.
  - rewrite (bind_lift_ok _ _ Hn). f_equal; lia.
  - rewrite (bind_lift_ok _ _ Hs). f_equal; lia.
Qed.

(** The errors of [math.floor]. *)
Lemma math_floor_errors (x : float) (e : exn) :
  math_floor x = Raise e ->
  is_finite x = false /\ (e = ValueError \/ e = OverflowError).
Proof.
  unfold math_floor, is_finite.
  destruct (Prim2SF x) as [s | s | | s m ex]; try discriminate;
    intros H; injection H as <-; split; auto.
Qed.

(** With a sound cache, what [utm] returns is the reference of the
    identifier its floor gives. *)
Lemma utm_ok_inv (lat lon : float) (z : Sr) (w w' : world) :
  cache_ok w ->
  utm lat lon w = (Ok z, w') ->
  exists k,
    math_floor ((lon + 180) / 6)%float = Ok k
    /\ z = mkSr (hemisphere_prefix lat * 100 + (k mod 60 + 1)) "epsg".
Proof.
  intros Hok H.
  destruct (math_floor ((lon + 180) / 6)%float) as [k | e] eqn:Hk;
    [| rewrite (utm_without_floor lat lon w Hk) in H; discriminate].
  exists k. split; [reflexivity |].
  rewrite (@utm_is_sr lat lon k w Hk) in H.
  destruct (sr_spec (hemisphere_prefix lat * 100 + (k mod 60 + 1)) (AuthEnum EPSG) Hok)
    as (w1 & Hs & _).
  rewrite Hs in H. injection H as <- _. reflexivity.
Qed.

Lemma utm_ok_run (lat lon : float) (k : Z) (w : world) :
  cache_ok w ->
  math_floor ((lon + 180) / 6)%float = Ok k ->
  exists w',
    utm lat lon w = (Ok (mkSr (hemisphere_prefix lat * 100 + (k mod 60 + 1)) "epsg"), w')
    /\ cache_ok w' /\ next_id w' = next_id w.
Proof.
  intros Hok Hk. rewrite (@utm_is_sr lat lon k w Hk).
  apply (sr_spec _ (AuthEnum EPSG) Hok).
Qed.

Lemma zone_is_not_wgs84 (lat : float) (k : Z) :
  mkSr (hemisphere_prefix lat * 100 + (k mod 60 + 1)) "epsg" <> WGS_84
  /\ 32601 <= hemisphere_prefix lat * 100 + (k mod 60 + 1) <= 32760.
Proof.
  pose proof (band_range k) as Hb. unfold hemisphere_prefix.
  destruct (0 <=? lat)%float.
  - split; [| lia]. intros E.
    assert (H : 326 * 100 + (k mod 60 + 1) = 4326) by exact (f_equal srid E). lia.
  - split; [| lia]. intros E.
    assert (H : 327 * 100 + (k mod 60 + 1) = 4326) by exact (f_equal srid E). lia.
Qed.

(** X7. [sr] is memoized: it always returns a reference, draws no object
    identity, and called again in the state it left it returns the same
    reference and leaves that state as it is; the authority given as a
    member of [Authorities] or as that member's string makes no
    difference. *)
Theorem sr_is_memoized (i : Z) (auth : authority_arg) (w : world) :
  (exists s, fst (sr i auth w) = Ok s)
  /\ sr i auth (snd (sr i auth w)) = sr i auth w
  /\ next_id (snd (sr i auth w)) = next_id w
  /\ sr i (AuthEnum EPSG) w = sr i (AuthStr "epsg") w.
Proof.
  destruct (sr i auth w) as [r w1] eqn:H. simpl.
  destruct (sr_then_cached _ _ _ H) as (s & -> & Hl).
  split; [exists s; reflexivity |].
  split; [apply (sr_again _ _ _ H) |].
  split; [apply (sr_next_id _ _ _ H) | reflexivity].
Qed.

(** X8. [sr] keeps [_sr_cache] sound and never loses an entry: when every
    entry is the reference its key names and no key occurs twice, the same
    holds afterwards, every key found before is found with the same
    reference, and at most one entry was added. *)
Theorem sr_keeps_the_cache (i : Z) (auth : authority_arg) (w : world) :
  cache_ok w ->
  NoDup (cache_keys w) ->
  let w1 := snd (sr i auth w) in
  cache_ok w1
  /\ NoDup (cache_keys w1)
  /\ (forall k s, cache_lookup k (_sr_cache w) = Some s ->
                  cache_lookup k (_sr_cache w1) = Some s)
  /\ (length (_sr_cache w1) <= S (length (_sr_cache w)))%nat.
Proof.
  intros Hok Hnd w1. subst w1.
  destruct (sr_cases i auth w) as [(s & Hl & Hs) | (Hl & Hs)]; rewrite Hs; simpl.
  - repeat split; auto.
  - split; [| split; [| split]].
    + intros j b s [H | H].
      * injection H as <- <- <-. reflexivity.
      * apply (Hok _ _ _ H).
    + unfold cache_keys. simpl. constructor; [| exact Hnd].
      apply cache_lookup_absent. exact Hl.
    + intros k s Hk.
      destruct ((fst k =? i) && String.eqb (snd k) (authority_of auth)) eqn:E; [| exact Hk].
      apply andb_true_iff in E. destruct E as [E1 E2].
      apply Z.eqb_eq in E1. apply String.eqb_eq in E2.
      destruct k as [j b]. simpl in E1, E2. subst j b. congruence.
    + lia.
Qed.

(** X9. [utm] fails exactly when (lon + 180) / 6 has no floor: it returns a
    reference if and only if that quotient is finite, whatever the
    latitude is, also a NaN; otherwise it raises the [ValueError] (NaN) or
    [OverflowError] (infinity) of [math.floor] and the cache is as it
    was. *)
Theorem utm_fails_only_without_a_floor (lat lon : float) (w : world) :
  ((exists z w', utm lat lon w = (Ok z, w'))
   <-> is_finite ((lon + 180) / 6)%float = true)
  /\ (forall e w', utm lat lon w = (Raise e, w') ->
                   w' = w /\ (e = ValueError \/ e = OverflowError)).
Proof.
  split.
  - rewrite math_floor_finite. split.
    + intros (z & w' & H).
      destruct (math_floor ((lon + 180) / 6)%float) as [k | e] eqn:Hk.
      * exists k. reflexivity.
      * rewrite (utm_without_floor lat lon w Hk) in H. discriminate.
    + intros [k Hk]. rewrite (@utm_is_sr lat lon k w Hk).
      destruct (sr_cases (hemisphere_prefix lat * 100 + (k mod 60 + 1)) (AuthEnum EPSG) w)
        as [(s & _ & Hs) | (_ & Hs)]; rewrite Hs; eexists; eexists; reflexivity.
  - intros e w' H.
    destruct (math_floor ((lon + 180) / 6)%float) as [k | e'] eqn:Hk.
    + rewrite (@utm_is_sr lat lon k w Hk) in H.
      destruct (sr_cases (hemisphere_prefix lat * 100 + (k mod 60 + 1)) (AuthEnum EPSG) w)
        as [(s & _ & Hs) | (_ & Hs)]; rewrite Hs in H; discriminate.
    + rewrite (utm_without_floor lat lon w Hk) in H. injection H as <- <-.
      split; [reflexivity |]. apply (math_floor_errors _ Hk).
Qed.

(** X10. With a sound cache, every reference [utm] returns is an EPSG
    identifier of a UTM zone, 32601 to 32660 in the north and 32701 to
    32760 in the south, and so never WGS-84; it is in the cache
    afterwards, and the same call made again returns it and changes
    nothing. *)
Theorem utm_returns_a_zone (lat lon : float) (z : Sr) (w w' : world) :
  cache_ok w ->
  utm lat lon w = (Ok z, w') ->
  authority z = "epsg"
  /\ (if (0 <=? lat)%float then 32601 <= srid z <= 32660 else 32701 <= srid z <= 32760)
  /\ z <> WGS_84
  /\ cache_lookup (srid z, "epsg") (_sr_cache w') = Some z
  /\ utm lat lon w' = (Ok z, w').
Proof.
  intros Hok H.
  destruct (math_floor ((lon + 180) / 6)%float) as [k | e] eqn:Hk;
    [| rewrite (utm_without_floor lat lon w Hk) in H; discriminate].
  rewrite (@utm_is_sr lat lon k w Hk) in H.
  pose proof (band_range k) as Hb.
  set (i := hemisphere_prefix lat * 100 + (k mod 60 + 1)) in *.
  destruct (sr_spec i (AuthEnum EPSG) Hok) as (w1 & Hs & _).
  rewrite Hs in H. injection H as <- <-.
  destruct (sr_then_cached _ _ _ Hs) as (s & Es & Hl). injection Es as <-.
  assert (Hrange : if (0 <=? lat)%float then 32601 <= i <= 32660 else 32701 <= i <= 32760).
  { subst i. unfold hemisphere_prefix. destruct (0 <=? lat)%float; lia. }
  simpl. split; [reflexivity |]. split; [exact Hrange |]. split; [| split].
  - intros E. injection E as E.
    destruct (0 <=? lat)%float; lia.
  - exact Hl.
  - rewrite (@utm_is_sr lat lon k w1 Hk). fold i. apply (sr_again _ _ _ Hs).
Qed.

End SpatialRefMore.

(** ** More on wrappers *)

Module GeometryMore.

Import Distance SpatialRef Geometry SpatialRefNotions GeometryNotions.
Import DistanceFacts SpatialRefFacts SpatialRefMore GeometryFacts.

Section WithEngines.

Context {engine : GeometryEngine} {names : TypeNames}.

(** *** How the operations return *)

(** [transform] returns the receiver only for its own reference and
    [copy_=False]; every other wrapper it returns is new. *)
Lemma transform_ok_inv (self r : SrGeometry) (sr_ : Sr) (copy_ : bool) (w w' : world) :
  transform self sr_ copy_ w = (Ok r, w') ->
  (sr_ = _sr self /\ copy_ = false /\ r = self /\ w' = w)
  \/ (oid r = S (next_id w) /\ gid (_base_geometry r) = next_id w
      /\ _sr r = sr_ /\ w' = advance 2 w
      /\ (sr_ = _sr self -> ob_cls r = ob_cls self
                            /\ gval (_base_geometry r) = gval (_base_geometry self))
      /\ (sr_ <> _sr self -> ob_cls r = SrGeometry_cls
                             /\ proj_transform (_sr self) sr_ (gval (_base_geometry self))
                                = Ok (gval (_base_geometry r)))).
Proof.
  destruct (Sr_eqb sr_ (_sr self)) eqn:E.
  - apply Sr_eqb_eq in E. rewrite (transform_same self copy_ w E).
    destruct copy_.
    + rewrite copy_run. intros H. injection H as <- <-. right. simpl.
      repeat split; try reflexivity; try (symmetry; exact E); contradiction.
    + intros H. injection H as <- <-. left. repeat split. exact E.
  - apply Sr_eqb_neq in E. intros H.
    destruct (transform_other_result self copy_ w E H) as (Ho & Hg & Hc & Hs & Hw & Hp).
    right. repeat split; try assumption; contradiction.
Qed.

(** Whatever [transform] does, the cache of references is untouched and
    the counter of identities does not go back. *)
Lemma transform_steady (self : SrGeometry) (sr_ : Sr) (copy_ : bool)
      (r : result SrGeometry) (w w' : world) :
  transform self sr_ copy_ w = (r, w') ->
  _sr_cache w' = _sr_cache w /\ (next_id w <= next_id w')%nat.
Proof.
  destruct r as [o | e].
  - intros H. destruct (transform_ok_inv self sr_ copy_ w H)
      as [(_ & _ & _ & ->) | (_ & _ & _ & -> & _)]; simpl; split; try reflexivity; lia.
  - destruct (Sr_eqb sr_ (_sr self)) eqn:E.
    + apply Sr_eqb_eq in E. rewrite (transform_same self copy_ w E).
      destruct copy_; [rewrite copy_run |]; discriminate.
    + apply Sr_eqb_neq in E.
      destruct (proj_transform (_sr self) sr_ (gval (_base_geometry self))) as [v | e'] eqn:Hv.
      * rewrite (transform_other self copy_ w E Hv). discriminate.
      * rewrite (transform_other_raise self copy_ w E Hv).
        intros H. injection H as _ <-. split; [reflexivity | lia].
Qed.

Lemma as_utm_rp_steady (self : SrGeometry) (r : result (float * float)) (w w' : world) :
  as_utm_rp self w = (r, w') ->
  _sr_cache w' = _sr_cache w /\ (next_id w <= next_id w')%nat.
Proof.
  unfold as_utm_rp. destruct (Sr_eqb (_sr self) WGS_84).
  - intros H. injection H as _ <-. split; [reflexivity | lia].
  - destruct (transform self WGS_84 true w) as [[o | e] w1] eqn:Ht.
    + rewrite (bind_ok _ _ _ Ht). intros H. injection H as _ <-.
      apply (transform_steady _ _ _ _ Ht).
    + rewrite (bind_raise _ _ _ Ht). intros H. injection H as _ <-.
      apply (transform_steady _ _ _ _ Ht).
Qed.

(** The two ways [as_utm] returns a wrapper. *)
Lemma as_utm_ok_inv (self r : SrGeometry) (w w' : world) :
  as_utm self w = (Ok r, w') ->
  exists rp w1 z w2,
    as_utm_rp self w = (Ok rp, w1)
    /\ utm (snd rp) (fst rp) w1 = (Ok z, w2)
    /\ ((z = _sr self /\ r = self /\ w' = w2)
        \/ (z <> _sr self /\ transform self z true w2 = (Ok r, w'))).
Proof.
  unfold as_utm.
  destruct (as_utm_rp self w) as [[rp | e] w1] eqn:Hrp;
    [rewrite (bind_ok _ _ _ Hrp) | rewrite (bind_raise _ _ _ Hrp); discriminate].
  destruct (utm (snd rp) (fst rp) w1) as [[z | e] w2] eqn:Hz;
    [rewrite (bind_ok _ _ _ Hz) | rewrite (bind_raise _ _ _ Hz); discriminate].
  intros H. exists rp, w1, z, w2. split; [reflexivity |]. split; [exact Hz |].
  destruct (Sr_eqb z (_sr self)) eqn:E.
  - apply Sr_eqb_eq in E. injection H as <- <-. left. repeat split. exact E.
  - apply Sr_eqb_neq in E. right. split; assumption.
Qed.

(** How a successful [buffer] came about. *)
Lemma buffer_ok_inv (self r : SrGeometry) (n : float) (units : units_arg) (w w' : world) :
  buffer self n units w = (Ok r, w') ->
  exists base_utm w1 d v,
    as_utm self w = (Ok base_utm, w1)
    /\ meters n units = Ok d
    /\ buffered_back self base_utm d = Ok v
    /\ r = mkSrGeometry (3 + next_id w1) SrGeometry_cls (mkGeomObj (2 + next_id w1) v) (_sr self)
    /\ w' = advance 4 w1.
Proof.
  assert (Hb : buffer self n units w = SrGeometry_buffer self n units w)
    by (unfold buffer, cast; destruct (ob_cls self); reflexivity).
  rewrite Hb.
  destruct (as_utm self w) as [[base_utm | e] w1] eqn:Hutm.
  - destruct (meters n units) as [d | e] eqn:Hd.
    + destruct (buffered_back self base_utm d) as [v | e] eqn:Hv.
      * rewrite (SrGeometry_buffer_run self n units w Hutm Hd Hv).
        intros H. injection H as <- <-.
        exists base_utm, w1, d, v. repeat split; assumption.
      * unfold SrGeometry_buffer.
        rewrite (bind_ok _ _ _ Hutm), (bind_lift_ok _ _ Hd).
        rewrite (bind_ok _ _ _ (new_geom_run _ _)), (bind_ok _ _ _ (init_run _ _ _ _)).
        unfold buffered_back in Hv.
        destruct (Sr_eqb (_sr self) (_sr base_utm)) eqn:E; [discriminate |].
        apply Sr_eqb_neq in E.
        rewrite (@transform_other_raise _ _ (_sr self) true e); [discriminate | exact E | exact Hv].
    + unfold SrGeometry_buffer.
      rewrite (bind_ok _ _ _ Hutm), (bind_lift_raise _ _ Hd). discriminate.
  - unfold SrGeometry_buffer. rewrite (bind_raise _ _ _ Hutm). discriminate.
Qed.

(** *** The state across the operations *)

Lemma steady_grown (w w' : world) :
  _sr_cache w' = _sr_cache w -> (next_id w <= next_id w')%nat -> grown w w'.
Proof.
  intros Hc Hn. split; [| split; [| exact Hn]].
  - intros Hok i a s Hin. rewrite Hc in Hin. apply (Hok _ _ _ Hin).
  - intros k s Hk. rewrite Hc. exact Hk.
Qed.

Lemma grown_trans (w1 w2 w3 : world) : grown w1 w2 -> grown w2 w3 -> grown w1 w3.
Proof.
  intros (Ho1 & Hk1 & Hn1) (Ho2 & Hk2 & Hn2). split; [| split].
  - intros H. apply Ho2, Ho1, H.
  - intros k s H. apply Hk2, Hk1, H.
  - lia.
Qed.

Lemma sr_grown (i : Z) (auth : authority_arg) (r : result Sr) (w w' : world) :
  sr i auth w = (r, w') -> grown w w'.
Proof.
  intros H. destruct (sr_cases i auth w) as [(s & Hl & Hs) | (Hl & Hs)];
    rewrite Hs in H; injection H as _ <-.
  - apply steady_grown; [reflexivity | lia].
  - split; [| split; [| simpl; lia]].
    + intros Hok j b s [Heq | Hin].
      * injection Heq as <- <- <-. reflexivity.
      * apply (Hok _ _ _ Hin).
    + intros k s Hk. simpl.
      destruct ((fst k =? i) && String.eqb (snd k) (authority_of auth)) eqn:E; [| exact Hk].
      apply andb_true_iff in E. destruct E as [E1 E2].
      apply Z.eqb_eq in E1. apply String.eqb_eq in E2.
      destruct k as [j b]. simpl in E1, E2. subst j b. congruence.
Qed.

Lemma utm_grown (lat lon : float) (r : result Sr) (w w' : world) :
  utm lat lon w = (r, w') -> grown w w'.
Proof.
  destruct (math_floor ((lon + 180) / 6)%float) as [k | e] eqn:Hk.
  - rewrite (@utm_is_sr lat lon k w Hk). apply sr_grown.
  - rewrite (utm_without_floor lat lon w Hk). intros H. injection H as _ <-.
    apply steady_grown; [reflexivity | lia].
Qed.

Lemma transform_grown (self : SrGeometry) (sr_ : Sr) (copy_ : bool)
      (r : result SrGeometry) (w w' : world) :
  transform self sr_ copy_ w = (r, w') -> grown w w'.
Proof.
  intros H. destruct (transform_steady _ _ _ _ H) as [Hc Hn].
  apply steady_grown; assumption.
Qed.

Lemma as_utm_grown (self : SrGeometry) (r : result SrGeometry) (w w' : world) :
  as_utm self w = (r, w') -> grown w w'.
Proof.
  unfold as_utm.
  destruct (as_utm_rp self w) as [[rp | e] w1] eqn:Hrp.
  - destruct (as_utm_rp_steady _ _ Hrp) as [Hc1 Hn1].
    pose proof (@steady_grown _ _ Hc1 Hn1) as G1.
    rewrite (bind_ok _ _ _ Hrp).
    destruct (utm (snd rp) (fst rp) w1) as [[z | e] w2] eqn:Hz.
    + pose proof (@utm_grown _ _ _ _ _ Hz) as G2.
      rewrite (bind_ok _ _ _ Hz).
      destruct (Sr_eqb z (_sr self)).
      * intros H. injection H as _ <-. apply (@grown_trans _ _ _ G1 G2).
      * intros H. apply (@grown_trans _ _ _ (@grown_trans _ _ _ G1 G2) (@transform_grown _ _ _ _ _ _ H)).
    + rewrite (bind_raise _ _ _ Hz). intros H. injection H as _ <-.
      apply (@grown_trans _ _ _ G1 (@utm_grown _ _ _ _ _ Hz)).
  - rewrite (bind_raise _ _ _ Hrp). intros H. injection H as _ <-.
    destruct (as_utm_rp_steady _ _ Hrp) as [Hc1 Hn1]. apply (@steady_grown _ _ Hc1 Hn1).
Qed.



Lemma as_utm_next_id (self r : SrGeometry) (w w' : world) :
  as_utm self w = (Ok r, w') -> (next_id w <= next_id w')%nat.
Proof. intros H. apply (@as_utm_grown _ _ _ _ H). Qed.

(** [location] returns the receiver, or a new [SrPoint] on a new
    geometry handle. *)
Lemma location_cases (self : SrGeometry) (w : world) :
  (ob_cls self = SrPoint_cls /\ location self w = (Ok self, w))
  \/ (ob_cls self <> SrPoint_cls
      /\ exists g,
          location self w
          = (Ok (mkSrGeometry (S (next_id w)) SrPoint_cls (mkGeomObj (next_id w) g) (_sr self)),
             advance 2 w)).
Proof.
  unfold location. destruct (ob_cls self) eqn:Hc.
  - right. split; [discriminate |]. eexists.
    rewrite (bind_ok _ _ _ (new_geom_run _ _)), init_run. reflexivity.
  - left. split; reflexivity.
  - right. split; [discriminate |]. eexists.
    rewrite (bind_ok _ _ _ (new_geom_run _ _)), init_run. reflexivity.
  - right. split; [discriminate |]. eexists.
    rewrite (bind_ok _ _ _ (new_geom_run _ _)), init_run. reflexivity.
Qed.

(** *** Properties of the operations *)

(** X11. Whenever [location] returns, what it returns is an [SrPoint] in
    the reference of the receiver: the receiver itself, with nothing made,
    when the receiver is an [SrPoint], and a wrapper made by the call
    otherwise.  Asking the returned point for its location gives that
    very point again, no engine being asked. *)
Theorem location_returns_a_point (self p : SrGeometry) (w w' : world) :
  location self w = (Ok p, w') ->
  ob_cls p = SrPoint_cls
  /\ _sr p = _sr self
  /\ location p w' = (Ok p, w')
  /\ (ob_cls self = SrPoint_cls -> p = self /\ w' = w)
  /\ (ob_cls self <> SrPoint_cls -> oid p = S (next_id w)).
Proof.
  intros H.
  destruct (location_cases self w) as [(Hc & Hl) | (Hc & g & Hl)]; rewrite Hl in H;
    injection H as <- <-.
  - split; [exact Hc |]. split; [reflexivity |].
    split; [unfold location; rewrite Hc; reflexivity |].
    split; [intros _; split; reflexivity | intros Hn; contradiction].
  - simpl. split; [reflexivity |]. split; [reflexivity |]. split; [reflexivity |].
    split; [intros Hp; contradiction | intros _; reflexivity].
Qed.

(** X12. No operation hands out a wrapper that was there before, other
    than the receiver: what [transform], [as_wgs84], [as_utm] and
    [location] return is the receiver itself or a wrapper made by a
    constructor call during the operation. *)
Theorem operations_return_self_or_new (self r : SrGeometry) (w w' : world) :
  (oid self < next_id w)%nat ->
  (exists sr_ copy_, transform self sr_ copy_ w = (Ok r, w'))
  \/ as_wgs84 self w = (Ok r, w')
  \/ as_utm self w = (Ok r, w')
  \/ location self w = (Ok r, w') ->
  (r = self \/ forall o : SrGeometry, (oid o < next_id w)%nat -> oid r <> oid o)
  /\ (oid r < next_id w')%nat
  /\ (next_id w <= next_id w')%nat.
Proof.
  intros Hal.
  assert (Hnew : forall w1, (next_id w <= next_id w1)%nat -> oid r = S (next_id w1) ->
             (r = self \/ forall o : SrGeometry, (oid o < next_id w)%nat -> oid r <> oid o)
             /\ (oid r < next_id (advance 2 w1))%nat
             /\ (next_id w <= next_id (advance 2 w1))%nat).
  { intros w1 Hn Ho. simpl. split; [right; intros o Hlt; lia | split; lia]. }
  assert (Hself : forall w1, (next_id w <= next_id w1)%nat ->
             (self = self \/ forall o : SrGeometry, (oid o < next_id w)%nat -> oid self <> oid o)
             /\ (oid self < next_id w1)%nat
             /\ (next_id w <= next_id w1)%nat).
  { intros w1 Hn. split; [left; reflexivity | split; lia]. }
  assert (Htr : forall sr_ copy_ w1 w2,
             (next_id w <= next_id w1)%nat ->
             transform self sr_ copy_ w1 = (Ok r, w2) ->
             (r = self \/ forall o : SrGeometry, (oid o < next_id w)%nat -> oid r <> oid o)
             /\ (oid r < next_id w2)%nat
             /\ (next_id w <= next_id w2)%nat).
  { intros sr_ copy_ w1 w2 Hn H.
    destruct (transform_ok_inv self sr_ copy_ w1 H)
      as [(_ & _ & -> & ->) | (Ho & _ & _ & -> & _)].
    - apply Hself. exact Hn.
    - apply Hnew; assumption. }
  intros [(sr_ & copy_ & H) | [H | [H | H]]].
  - apply (Htr sr_ copy_ w w' (Nat.le_refl _) H).
  - unfold as_wgs84 in H. destruct (Sr_eqb (_sr self) WGS_84).
    + injection H as <- <-. apply Hself. lia.
    + apply (Htr WGS_84 true w w' (Nat.le_refl _) H).
  - destruct (as_utm_ok_inv self w H) as (rp & w1 & z & w2 & Hrp & Hz & Hcase).
    destruct (as_utm_rp_steady _ _ Hrp) as [_ Hn1].
    pose proof (utm_next_id _ _ _ Hz) as Hn2.
    destruct Hcase as [(_ & -> & ->) | (_ & Ht)].
    + apply Hself. lia.
    + apply (Htr z true w2 w'); [lia | exact Ht].
  - destruct (location_cases self w) as [(Hc & Hl) | (Hc & g & Hl)]; rewrite Hl in H;
      injection H as <- <-.
    + apply Hself. lia.
    + apply Hnew; [lia | reflexivity].
Qed.

(** X13. [buffer] never returns its receiver nor a wrapper on the
    receiver's geometry handle: whatever the distance, what it returns is
    a new wrapper on a new handle, and the receiver is as it was. *)
Theorem buffer_returns_a_new_wrapper
        (self r : SrGeometry) (n : float) (units : units_arg) (w w' : world) :
  allocated w self ->
  buffer self n units w = (Ok r, w') ->
  oid r <> oid self
  /\ gid (_base_geometry r) <> gid (_base_geometry self)
  /\ (next_id w <= gid (_base_geometry r))%nat
  /\ allocated w' r
  /\ allocated w' self.
Proof.
  intros [Ho Hg] H.
  destruct (buffer_ok_inv self n units w H) as (base & w1 & d & v & Hutm & _ & _ & -> & ->).
  pose proof (as_utm_next_id _ _ Hutm) as Hn.
  unfold allocated. simpl. repeat split; lia.
Qed.

(** X14. What [as_wgs84] returns is in WGS-84, and [as_wgs84] of it is
    that very wrapper: a second call makes nothing and changes nothing. *)
Theorem as_wgs84_is_idempotent (self r : SrGeometry) (w w' : world) :
  as_wgs84 self w = (Ok r, w') ->
  _sr r = WGS_84 /\ as_wgs84 r w' = (Ok r, w').
Proof.
  intros H.
  assert (Hs : _sr r = WGS_84).
  { unfold as_wgs84 in H. destruct (Sr_eqb (_sr self) WGS_84) eqn:E.
    - injection H as <- <-. apply Sr_eqb_eq. exact E.
    - apply Sr_eqb_neq in E.
      assert (Hne : WGS_84 <> _sr self) by congruence.
      apply (transform_other_result self true w Hne H). }
  split; [exact Hs |].
  unfold as_wgs84. rewrite Hs, Sr_eqb_refl. reflexivity.
Qed.

(** [as_utm] of a wrapper in WGS-84, step by step. *)
Lemma as_utm_wgs84_run (self : SrGeometry) (k : Z) (v : Geom) (w : world) :
  _sr self = WGS_84 ->
  cache_ok w ->
  let rp := geom_representative_point (gval (_base_geometry self)) in
  let z := mkSr (hemisphere_prefix (snd rp) * 100 + (k mod 60 + 1)) "epsg" in
  math_floor ((fst rp + 180) / 6)%float = Ok k ->
  proj_transform WGS_84 z (gval (_base_geometry self)) = Ok v ->
  exists w1,
    as_utm self w
    = (Ok (mkSrGeometry (S (next_id w)) SrGeometry_cls (mkGeomObj (next_id w) v) z),
       advance 2 w1)
    /\ cache_ok w1 /\ next_id w1 = next_id w.
Proof.
  intros Hs Hok rp z Hk Hv.
  destruct (utm_ok_run (snd rp) (fst rp) Hok Hk) as (w1 & Hz & Hok1 & Hn1).
  fold z in Hz. exists w1. split; [| split; assumption].
  assert (Hrp : as_utm_rp self w = (Ok rp, w)).
  { unfold as_utm_rp. rewrite Hs, Sr_eqb_refl. reflexivity. }
  unfold as_utm. rewrite (bind_ok _ _ _ Hrp), (bind_ok _ _ _ Hz).
  assert (Hne : z <> _sr self).
  { rewrite Hs. apply zone_is_not_wgs84. }
  rewrite (proj2 (Sr_eqb_neq z (_sr self)) Hne).
  assert (Hv' : proj_transform (_sr self) z (gval (_base_geometry self)) = Ok v)
    by (rewrite Hs; exact Hv).
  rewrite (transform_other self true w1 Hne Hv'). rewrite Hn1. reflexivity.
Qed.

(** X15. [as_utm] never returns a WGS-84 wrapper as it is, a UTM zone
    never being WGS-84: with a sound cache, what it returns for a wrapper
    in WGS-84 is a new instance of the base class [SrGeometry], whatever
    the class of the receiver, in the EPSG zone of the representative
    point and holding the projection of the geometry to that zone. *)
Theorem as_utm_of_wgs84_is_a_transform (self r : SrGeometry) (w w' : world) :
  _sr self = WGS_84 ->
  cache_ok w ->
  as_utm self w = (Ok r, w') ->
  r <> self
  /\ ob_cls r = SrGeometry_cls
  /\ oid r = S (next_id w)
  /\ authority (_sr r) = "epsg"
  /\ 32601 <= srid (_sr r) <= 32760
  /\ fst (utm (snd (geom_representative_point (gval (_base_geometry self))))
              (fst (geom_representative_point (gval (_base_geometry self)))) w)
     = Ok (_sr r)
  /\ proj_transform WGS_84 (_sr r) (gval (_base_geometry self))
     = Ok (gval (_base_geometry r)).
Proof.
  intros Hs Hok H.
  destruct (as_utm_ok_inv self w H) as (rp & w1 & z & w2 & Hrp & Hz & Hcase).
  assert (Hrp' : as_utm_rp self w
                 = (Ok (geom_representative_point (gval (_base_geometry self))), w)).
  { unfold as_utm_rp. rewrite Hs, Sr_eqb_refl. reflexivity. }
  rewrite Hrp' in Hrp. injection Hrp as <- <-.
  destruct (utm_ok_inv _ _ Hok Hz) as (k & Hk & ->).
  destruct (zone_is_not_wgs84
              (snd (geom_representative_point (gval (_base_geometry self)))) k)
    as [Hne Hrange].
  pose proof (utm_next_id _ _ _ Hz) as Hn.
  destruct Hcase as [(Heq & _) | (Hne' & Ht)]; [rewrite Hs in Heq; contradiction |].
  destruct (transform_other_result self true w2 Hne' Ht) as (Ho & _ & Hc & Hsr & _ & Hp).
  rewrite Hs in Hp. rewrite Hsr. simpl.
  split; [intros E; rewrite E in Hsr; rewrite Hs in Hsr; apply Hne; symmetry; exact Hsr |].
  split; [exact Hc |]. split; [rewrite Ho, Hn; reflexivity |].
  split; [reflexivity |]. split; [exact Hrange |].
  split; [rewrite Hz; reflexivity | exact Hp].
Qed.

(** X16. [from_lat_lon] and [as_utm] agree on the order of coordinates:
    the point is built in WGS-84 with the longitude as x and the latitude
    as y, and, for an engine whose representative point of a point is that
    point, its UTM form is in the zone [utm] computes for that latitude
    and that longitude. *)
Theorem from_lat_lon_then_as_utm (lat lon : float) (k : Z) (v : Geom) (w : world) :
  cache_ok w ->
  geom_representative_point (geom_point lon lat) = (lon, lat) ->
  math_floor ((lon + 180) / 6)%float = Ok k ->
  let z := mkSr (hemisphere_prefix lat * 100 + (k mod 60 + 1)) "epsg" in
  proj_transform WGS_84 z (geom_point lon lat) = Ok v ->
  exists p w1 r w2,
    from_lat_lon lat lon w = (Ok p, w1)
    /\ ob_cls p = SrPoint_cls
    /\ _sr p = WGS_84
    /\ gval (_base_geometry p) = geom_point lon lat
    /\ as_wgs84 p w1 = (Ok p, w1)
    /\ fst (utm lat lon w1) = Ok z
    /\ as_utm p w1 = (Ok r, w2)
    /\ _sr r = z
    /\ gval (_base_geometry r) = v.
Proof.
  intros Hok Hrp Hk z Hv.
  set (p := mkSrGeometry (S (next_id w)) SrPoint_cls
                         (mkGeomObj (next_id w) (geom_point lon lat)) WGS_84).
  assert (Hp : from_lat_lon lat lon w = (Ok p, advance 2 w)).
  { unfold from_lat_lon. rewrite (bind_ok _ _ _ (new_geom_run _ _)), init_run. reflexivity. }
  assert (Hok2 : cache_ok (advance 2 w)).
  { intros i a s Hin. apply (Hok _ _ _ Hin). }
  assert (Hk' : math_floor
                  ((fst (geom_representative_point (gval (_base_geometry p))) + 180) / 6)%float
                = Ok k).
  { simpl. rewrite Hrp. exact Hk. }
  assert (Hv' : proj_transform WGS_84
                  (mkSr (hemisphere_prefix
                           (snd (geom_representative_point (gval (_base_geometry p)))) * 100
                         + (k mod 60 + 1)) "epsg")
                  (gval (_base_geometry p)) = Ok v).
  { simpl. rewrite Hrp. exact Hv. }
  destruct (@as_utm_wgs84_run p k v (advance 2 w) eq_refl Hok2 Hk' Hv') as (w1 & Hu & _ & _).
  destruct (utm_ok_run lat lon Hok2 Hk) as (w1' & Hz & _).
  exists p, (advance 2 w). eexists. eexists.
  split; [exact Hp |]. split; [reflexivity |]. split; [reflexivity |].
  split; [reflexivity |]. split; [reflexivity |].
  split; [rewrite Hz; reflexivity |].
  split; [exact Hu |]. simpl. rewrite Hrp. split; reflexivity.
Qed.

(** *** [export], [load] and pickling *)

(** X17. What [load] raises.  A true number, string, list or tuple, which
    cannot be subscripted with a key, is a [TypeError].  For a mapping whose class is resolved, the failure of
    [shape] on the geometry entry (a missing entry is [None]) is raised
    as it is, before anything is made; and when the geometry is read but
    there is no reference entry, [load] raises a [TypeError] after the
    geometry was built. *)
Theorem load_raises (cls_ : cls) (w : world) :
  (forall data,
      py_bool data = true ->
      (forall kv, data <> PDict kv) -> (forall name, data <> PObject name) ->
      load cls_ data w = (Raise TypeError, w))
  /\ (forall kv c e,
         kv <> [] ->
         load_cls cls_ (PDict kv) = Ok c ->
         geom_shape (entry "base_geometry" kv) = Raise e ->
         load cls_ (PDict kv) w = (Raise e, w))
  /\ (forall kv c v,
         kv <> [] ->
         load_cls cls_ (PDict kv) = Ok c ->
         geom_shape (entry "base_geometry" kv) = Ok v ->
         assoc "sr_" kv = None ->
         load cls_ (PDict kv) w = (Raise TypeError, advance 1 w)).
Proof.
  split; [| split].
  - intros data Hb Hnd _. unfold load. rewrite Hb. cbv [negb].
    assert (Hcls : load_cls cls_ data = Raise TypeError).
    { unfold load_cls, getitem. destruct data; try reflexivity.
      exfalso. apply (Hnd kv). reflexivity. }
    rewrite (bind_lift_raise _ _ Hcls). reflexivity.
  - intros kv c e Hkv Hcls He. unfold load. rewrite (py_bool_dict Hkv). cbv [negb].
    rewrite (bind_lift_ok _ _ Hcls), (bind_lift_ok _ _ (dict_get_entry _ _)).
    rewrite (bind_lift_raise _ _ He). reflexivity.
  - intros kv c v Hkv Hcls Hv Hsr. unfold load. rewrite (py_bool_dict Hkv). cbv [negb].
    rewrite (bind_lift_ok _ _ Hcls), (bind_lift_ok _ _ (dict_get_entry _ _)).
    rewrite (bind_lift_ok _ _ Hv), (bind_ok _ _ _ (new_geom_run _ _)).
    rewrite (bind_lift_ok _ _ (dict_get_entry _ _)).
    assert (Hk : Sr_of_kwargs (entry "sr_" kv) = Raise TypeError)
      by (unfold entry; rewrite Hsr; reflexivity).
    rewrite (bind_lift_raise _ _ Hk). reflexivity.
Qed.

(** X18. [load] of an export restores the class and the reference of the
    exported wrapper exactly, whatever class [load] is called on, as soon
    as the type tag names its class: the result is a new wrapper of the
    class of the original, in its reference, on the geometry [shape]
    reads from the exported mapping. *)
Theorem load_of_export_restores_the_class
        (self : SrGeometry) (cls_ : cls) (v : Geom) (w : world) :
  pycls (PStr (pyfqn (ob_cls self))) = Ok (ob_cls self) ->
  geom_shape (geom_mapping (gval (_base_geometry self))) = Ok v ->
  load cls_ (export self) w
  = (Ok (Some (mkSrGeometry (S (next_id w)) (ob_cls self)
                 (mkGeomObj (next_id w) v) (_sr self))),
     advance 2 w)
  /\ load cls_ (export self) w = load SrGeometry_cls (export self) w.
Proof.
  intros Hc Hv. unfold export.
  rewrite (@load_three_entries _ _ cls_ (ob_cls self) _ _ (_sr self) v w Hc Hv).
  rewrite (@load_three_entries _ _ SrGeometry_cls (ob_cls self) _ _ (_sr self) v w Hc Hv).
  split; reflexivity.
Qed.

(** X19. A reference survives its own dictionary: [Sr] called with the
    entries of [_asdict()] is the reference again, also after the
    dictionary went through JSON, which leaves it as it is.  The authority
    defaults to ['epsg']; a dictionary without ['srid'], or with any other
    key than the two fields, is a [TypeError]. *)
Theorem Sr_survives_its_dictionary (s : Sr) :
  Sr_of_kwargs (_asdict s) = Ok s
  /\ json_roundtrip (_asdict s) = Ok (_asdict s)
  /\ (forall i, Sr_of_kwargs (PDict [("srid", PInt i)]) = Ok (mkSr i "epsg"))
  /\ (forall kv, assoc "srid" kv = None -> Sr_of_kwargs (PDict kv) = Raise TypeError)
  /\ (forall kv k x,
         In (k, x) kv -> k <> "srid" -> k <> "authority" ->
         Sr_of_kwargs (PDict kv) = Raise TypeError).
Proof.
  split; [apply Sr_of_kwargs_asdict |]. split; [destruct s; reflexivity |].
  split; [reflexivity |]. split.
  - intros kv H. unfold Sr_of_kwargs. rewrite H.
    destruct (forallb _ kv); reflexivity.
  - intros kv k x Hin Hs Ha. unfold Sr_of_kwargs.
    destruct (forallb (fun p => String.eqb (fst p) "srid" || String.eqb (fst p) "authority") kv)
      eqn:E; [| reflexivity].
    rewrite forallb_forall in E. specialize (E _ Hin). simpl in E.
    apply orb_true_iff in E. destruct E as [E | E]; apply String.eqb_eq in E; contradiction.
Qed.

(** X20. [__eq__] turns an [AttributeError] into [False] only inside its
    [try] block.  When the truth test of the operand raises, [==] and
    [!=] raise that error, an [AttributeError] included.  When the
    operand is true and reading its [_sr] raises, [==] is [False] and
    [!=] is [True] for an [AttributeError], and both raise the error
    otherwise.  Whenever [==] returns, [!=] returns the opposite; whenever
    [==] raises, [!=] raises the same error, which came from the truth
    test or, being no [AttributeError], from inside the [try] block. *)
Theorem eq_catches_attribute_errors_in_the_try (a : SrGeometry) (other : pyobj) :
  (forall e, obj_bool other = Raise e ->
             __eq__ a other = Raise e /\ __ne__ a other = Raise e)
  /\ (obj_bool other = Ok true ->
      forall e, obj_sr other = Raise e ->
        (e = AttributeError -> __eq__ a other = Ok false /\ __ne__ a other = Ok true)
        /\ (e <> AttributeError -> __eq__ a other = Raise e /\ __ne__ a other = Raise e))
  /\ (forall b, __eq__ a other = Ok b -> __ne__ a other = Ok (negb b))
  /\ (forall e, __eq__ a other = Raise e ->
        __ne__ a other = Raise e
        /\ (obj_bool other = Raise e
            \/ (obj_bool other = Ok true /\ eq_try a other = Raise e
                /\ e <> AttributeError))).
Proof.
  split; [| split; [| split]].
  - intros e Hb. unfold __ne__, __eq__. rewrite Hb. split; reflexivity.
  - intros Hb e Hs. unfold __ne__, __eq__, eq_try. rewrite Hb, Hs. split.
    + intros ->. split; reflexivity.
    + intros Hne. destruct e; try contradiction; split; reflexivity.
  - intros b H. unfold __ne__. rewrite H. reflexivity.
  - intros e H. split; [unfold __ne__; rewrite H; reflexivity |].
    unfold __eq__ in H. destruct (obj_bool other) as [[|] | e'] eqn:Hb.
    + right. split; [reflexivity |].
      destruct (eq_try a other) as [b | e''] eqn:Ht; [discriminate |].
      destruct e''; try discriminate; injection H as <-;
        (split; [reflexivity | discriminate]).
    + discriminate.
    + injection H as <-. left. reflexivity.
Qed.


(** X22. Pickling round trip: [__setstate__] fed with the state
    [__getstate__] returns gives an instance with the same reference and,
    when the engine reads the mapping of the geometry back as an equal
    geometry, a geometry that makes it [==] to the original, on a new
    handle.  A state whose geometry [shape] rejects (a missing one is
    [None]) makes [__setstate__] raise before any slot is set. *)
Theorem setstate_of_getstate
        (self : SrGeometry) (blank : instance) (w : world) :
  reads_back (gval (_base_geometry self)) (geom_mapping (gval (_base_geometry self))) ->
  (exists i o w',
      __setstate__ blank (__getstate__ self) w = (Ok i, w')
      /\ inst_oid i = inst_oid blank
      /\ inst_cls i = inst_cls blank
      /\ inst_sr i = Some (SlotSr (_sr self))
      /\ as_wrapper i = Some o
      /\ _sr o = _sr self
      /\ gid (_base_geometry o) = next_id w
      /\ __eq__ o (as_obj self) = Ok true)
  /\ (forall state e,
         shape_of_slot (state_get state "_base_geometry") = Raise e ->
         __setstate__ blank state w = (Raise e, w)).
Proof.
  intros (g' & Hs & Hb & He). split.
  - unfold __setstate__.
    assert (Hshape : shape_of_slot (state_get (__getstate__ self) "_base_geometry") = Ok g')
      by exact Hs.
    rewrite (bind_lift_ok _ _ Hshape), (bind_ok _ _ _ (new_geom_run _ _)).
    eexists. eexists. eexists. split; [reflexivity |]. simpl.
    split; [reflexivity |]. split; [reflexivity |]. split; [reflexivity |].
    split; [reflexivity |]. simpl. split; [reflexivity |]. split; [reflexivity |].
    apply eq_read_back; simpl; [reflexivity | exact Hb | exact He].
  - intros state e Hr. unfold __setstate__.
    rewrite (bind_lift_raise _ _ Hr). reflexivity.
Qed.

End WithEngines.

End GeometryMore.

(** ** More properties on the test doubles *)

Module MoreExamples.

Import Distance SpatialRef Geometry Projections SpatialRefNotions GeometryNotions.
Import Fake FakeProj FakeInstances.
Import DistanceFacts SpatialRefFacts SpatialRefMore ProjectionFacts GeometryFacts GeometryMore.

(** The projection of WGS-84 is built once. *)
Lemma proj_is_memoized_witness :
  exists p c1,
    proj WGS_84 caches0 = (Ok p, c1)
    /\ proj WGS_84 c1 = (Ok p, c1)
    /\ proj_calls c1 = ["epsg:4326"].
Proof.
  pose (c1 := snd (proj WGS_84 caches0)).
  destruct (@proj_is_memoized proj_engine WGS_84 "epsg:4326" caches0 c1 c1
              eq_refl (extends_refl c1)) as [H _].
  exists "epsg:4326", c1. split; [reflexivity |]. split; [exact H | reflexivity].
Defined.

(** A reference of an unknown authority is asked for twice. *)
Lemma proj_failure_is_not_cached_witness :
  exists c1 c2,
    proj unknown_sr caches0 = (Raise ProjError, c1)
    /\ _proj_cache c1 = []
    /\ proj unknown_sr c1 = (Raise ProjError, c2)
    /\ proj_calls c2 = ["nowhere:1"; "nowhere:1"].
Proof.
  pose (c1 := snd (proj unknown_sr caches0)).
  destruct (@proj_failure_is_not_cached proj_engine unknown_sr ProjError caches0 c1 eq_refl)
    as (Hc & _ & c2 & H2 & Hcalls).
  exists c1, c2. split; [reflexivity |]. split; [exact Hc |]. split; [exact H2 | exact Hcalls].
Defined.

Lemma caches_grow_and_stay_sound_witness :
  let c' := snd (_transform_fn WGS_84 zone15 caches0) in
  caches_ok c' /\ fn_backed c' /\ extends caches0 c'.
Proof.
  assert (Hok : caches_ok caches0) by (split; intros; contradiction).
  assert (Hb : fn_backed caches0) by (intros a b fn H; contradiction).
  apply (@caches_grow_and_stay_sound proj_engine caches0 _ Hok Hb).
  right. exists WGS_84, zone15. eexists. reflexivity.
Defined.

Lemma transform_fn_binds_and_memoizes_witness :
  exists fn c1,
    _transform_fn WGS_84 zone15 caches0 = (Ok fn, c1)
    /\ fn_from fn = "epsg:4326" /\ fn_to fn = "epsg:32615"
    /\ _transform_fn WGS_84 zone15 c1 = (Ok fn, c1).
Proof.
  assert (Hok : caches_ok caches0) by (split; intros; contradiction).
  pose (fn := mkPartial "epsg:4326" "epsg:32615").
  pose (c1 := snd (_transform_fn WGS_84 zone15 caches0)).
  destruct (@transform_fn_binds_and_memoizes proj_engine WGS_84 zone15 fn caches0 c1 Hok eq_refl)
    as (_ & _ & H).
  exists fn, c1. split; [reflexivity |]. split; [reflexivity |]. split; [reflexivity | exact H].
Defined.

Lemma transform_fn_reverse_is_separate_witness :
  exists fn c1 c2,
    _transform_fn WGS_84 zone15 caches0 = (Ok fn, c1)
    /\ kv_lookup pair_eqb (zone15, WGS_84) (_transform_fn_cache c1) = None
    /\ _transform_fn zone15 WGS_84 c1 = (Ok (mkPartial (fn_to fn) (fn_from fn)), c2)
    /\ proj_calls c2 = proj_calls c1.
Proof.
  assert (Hb : fn_backed caches0) by (intros a b fn H; contradiction).
  pose (fn := mkPartial "epsg:4326" "epsg:32615").
  pose (c1 := snd (_transform_fn WGS_84 zone15 caches0)).
  destruct (@transform_fn_reverse_is_separate proj_engine WGS_84 zone15 fn caches0 c1
              Hb ltac:(discriminate) eq_refl eq_refl)
    as (Hrev & c2 & H2 & Hcalls & _).
  exists fn, c1, c2. split; [reflexivity |]. split; [exact Hrev |].
  split; [exact H2 | exact Hcalls].
Defined.

Lemma transform_fn_partial_failure_witness :
  exists c',
    _transform_fn WGS_84 unknown_sr caches0 = (Raise ProjError, c')
    /\ _transform_fn_cache c' = []
    /\ kv_lookup key_eqb (4326, "epsg") (_proj_cache c') = Some "epsg:4326".
Proof.
  destruct (@transform_fn_partial_failure proj_engine WGS_84 unknown_sr "epsg:4326" ProjError
              caches0 eq_refl eq_refl eq_refl eq_refl eq_refl)
    as (c' & H & Hfn & Ha & _).
  exists c'. split; [exact H |]. split; [exact Hfn | exact Ha].
Defined.

(** A cache that holds WGS-84 when zone 15 is asked for. *)
Lemma sr_keeps_the_cache_witness :
  let w := mkWorld 0 [((4326, "epsg"), WGS_84)] in
  let w1 := snd (sr 32615 (AuthEnum EPSG) w) in
  cache_ok w1
  /\ NoDup (cache_keys w1)
  /\ cache_lookup (4326, "epsg") (_sr_cache w1) = Some WGS_84.
Proof.
  intros w w1.
  assert (Hok : cache_ok w).
  { intros i a s [H | []]. injection H as <- <- <-. reflexivity. }
  assert (Hnd : NoDup (cache_keys w)).
  { constructor; [intros [] | constructor]. }
  destruct (@sr_keeps_the_cache 32615 (AuthEnum EPSG) w Hok Hnd) as (H1 & H2 & H3 & _).
  split; [exact H1 |]. split; [exact H2 |]. apply H3. reflexivity.
Defined.

Lemma utm_returns_a_zone_witness :
  exists w',
    utm 45.0%float (-94.0)%float world0 = (Ok zone15, w')
    /\ cache_lookup (32615, "epsg") (_sr_cache w') = Some zone15
    /\ utm 45.0%float (-94.0)%float w' = (Ok zone15, w').
Proof.
  pose (w' := snd (utm 45.0%float (-94.0)%float world0)).
  destruct (@utm_returns_a_zone 45.0%float (-94.0)%float zone15 world0 w'
              cache_ok_world0 eq_refl)
    as (_ & _ & _ & Hl & Hu).
  exists w'. split; [reflexivity |]. split; [exact Hl | exact Hu].
Defined.

(** The midpoint of a line is a point that is its own location. *)
Lemma location_returns_a_point_witness :
  exists p w',
    location wgs84_line world2 = (Ok p, w')
    /\ ob_cls p = SrPoint_cls
    /\ location p w' = (Ok p, w').
Proof.
  pose (res := location wgs84_line world2).
  pose (p := match fst res with Ok o => o | Raise _ => wgs84_line end).
  pose (w' := snd res).
  assert (E : location wgs84_line world2 = (Ok p, w')) by reflexivity.
  destruct (@location_returns_a_point Fake.engine wgs84_line p world2 w' E)
    as (Hc & _ & Hl & _).
  exists p, w'. split; [exact E |]. split; [exact Hc | exact Hl].
Defined.

(** The point held in zone 16: [as_utm] returns a wrapper that [wgs84_line]
    and every other wrapper made before is not. *)
Lemma operations_return_self_or_new_witness :
  exists r w',
    as_utm utm16_point world2 = (Ok r, w')
    /\ r <> utm16_point
    /\ oid r <> oid wgs84_line.
Proof.
  pose (res := as_utm utm16_point world2).
  pose (r := match fst res with Ok o => o | Raise _ => utm16_point end).
  pose (w' := snd res).
  assert (E : as_utm utm16_point world2 = (Ok r, w')) by reflexivity.
  assert (H : (oid utm16_point < next_id world2)%nat) by (simpl; lia).
  destruct (@operations_return_self_or_new Fake.engine utm16_point r world2 w' H
              (or_intror (or_intror (or_introl E))))
    as ([Hs | Hn] & _).
  - exfalso. assert (Hc : ob_cls r = ob_cls utm16_point) by (rewrite Hs; reflexivity).
    discriminate Hc.
  - exists r, w'. split; [exact E |]. split.
    + intros Heq. assert (Hc : ob_cls r = ob_cls utm16_point) by (rewrite Heq; reflexivity).
      discriminate Hc.
    + apply Hn. simpl. lia.
Defined.

Lemma buffer_returns_a_new_wrapper_witness :
  allocated world2 wgs84_point
  /\ exists r w',
       buffer wgs84_point 0%float (UnitsMember METERS) world2 = (Ok r, w')
       /\ oid r <> oid wgs84_point
       /\ gid (_base_geometry r) <> gid (_base_geometry wgs84_point).
Proof.
  assert (H : allocated world2 wgs84_point) by (split; simpl; lia).
  split; [exact H |].
  pose (res := buffer wgs84_point 0%float (UnitsMember METERS) world2).
  pose (r := match fst res with Ok o => o | Raise _ => wgs84_point end).
  pose (w' := snd res).
  assert (E : buffer wgs84_point 0%float (UnitsMember METERS) world2 = (Ok r, w'))
    by reflexivity.
  destruct (@buffer_returns_a_new_wrapper Fake.engine wgs84_point r 0%float
              (UnitsMember METERS) world2 w' H E)
    as (Ho & Hg & _).
  exists r, w'. split; [exact E |]. split; [exact Ho | exact Hg].
Defined.

Lemma as_wgs84_is_idempotent_witness :
  exists r w',
    as_wgs84 utm15_point world2 = (Ok r, w')
    /\ _sr r = WGS_84
    /\ as_wgs84 r w' = (Ok r, w').
Proof.
  pose (res := as_wgs84 utm15_point world2).
  pose (r := match fst res with Ok o => o | Raise _ => utm15_point end).
  pose (w' := snd res).
  assert (E : as_wgs84 utm15_point world2 = (Ok r, w')) by reflexivity.
  destruct (@as_wgs84_is_idempotent Fake.engine utm15_point r world2 w' E) as [Hs Hi].
  exists r, w'. split; [exact E |]. split; [exact Hs | exact Hi].
Defined.

Lemma as_utm_of_wgs84_is_a_transform_witness :
  exists r w',
    as_utm wgs84_point world2 = (Ok r, w')
    /\ ob_cls wgs84_point = SrPoint_cls
    /\ ob_cls r = SrGeometry_cls
    /\ 32601 <= srid (_sr r) <= 32760.
Proof.
  pose (res := as_utm wgs84_point world2).
  pose (r := match fst res with Ok o => o | Raise _ => wgs84_point end).
  pose (w' := snd res).
  assert (E : as_utm wgs84_point world2 = (Ok r, w')) by reflexivity.
  assert (Hok : cache_ok world2) by (intros i a s []).
  destruct (@as_utm_of_wgs84_is_a_transform Fake.engine wgs84_point r world2 w' eq_refl Hok E)
    as (_ & Hc & _ & _ & Hr & _).
  exists r, w'. split; [exact E |]. split; [reflexivity |]. split; [exact Hc | exact Hr].
Defined.

(** The fixture of the package's test lies in zone 15 north. *)
Lemma from_lat_lon_then_as_utm_witness :
  exists p w1 r w2,
    from_lat_lon 45.553670%float (-94.142430)%float world0 = (Ok p, w1)
    /\ as_utm p w1 = (Ok r, w2)
    /\ _sr r = zone15.
Proof.
  assert (Hok : cache_ok world0) by (intros i a s []).
  destruct (@from_lat_lon_then_as_utm Fake.engine 45.553670%float (-94.142430)%float 14
              [(410890.45999999961%float, 5056457.3699999992%float)] world0
              Hok eq_refl eq_refl eq_refl)
    as (p & w1 & r & w2 & Hp & _ & _ & _ & _ & _ & Hu & Hs & _).
  exists p, w1, r, w2. split; [exact Hp |]. split; [exact Hu | exact Hs].
Defined.

Lemma load_of_export_restores_the_class_witness :
  exists o w',
    load SrGeometry_cls (export wgs84_point) world2 = (Ok (Some o), w')
    /\ ob_cls o = SrPoint_cls
    /\ _sr o = WGS_84.
Proof.
  destruct (@load_of_export_restores_the_class Fake.engine Fake.names wgs84_point
              SrGeometry_cls (gval (_base_geometry wgs84_point)) world2 eq_refl eq_refl)
    as [H _].
  eexists. eexists. split; [exact H |]. split; reflexivity.
Defined.


Lemma setstate_of_getstate_witness :
  exists i o w',
    __setstate__ blank_point (__getstate__ wgs84_point) world2 = (Ok i, w')
    /\ as_wrapper i = Some o
    /\ __eq__ o (as_obj wgs84_point) = Ok true.
Proof.
  assert (Hread : reads_back (gval (_base_geometry wgs84_point))
                             (geom_mapping (gval (_base_geometry wgs84_point)))).
  { exists (gval (_base_geometry wgs84_point)).
    split; [reflexivity |]. split; [reflexivity |]. intros _. reflexivity. }
  destruct (@setstate_of_getstate Fake.engine wgs84_point blank_point world2 Hread)
    as [(i & o & w' & Hs & _ & _ & _ & Hw & _ & _ & He) _].
  exists i, o, w'. split; [exact Hs |]. split; [exact Hw | exact He].
Defined.

End MoreExamples.
